(** * ep-engine: system events and the couchstore KVStore

    A shallow embedding of [src/systemevent.cc] (the factory of system-event
    items, the flusher's and the replication's filters) and of the inline
    transaction methods of [src/couch-kvstore/couch-kvstore.h], followed by
    a model of the couchstore metadata codec, whose header is not among the
    sources, and by the properties the specification states about them. *)

From Stdlib Require Import ZArith List String Ascii Bool Lia.
From Stdlib Require Import Permutation Sorted.
Import ListNotations.
Local Open Scope Z_scope.

(** ** Exceptions

    The C++ functions either return or throw.  Only the class of the
    exception is kept; the message text plays no part in any property. *)

Inductive exn : Type :=
| invalid_argument
| logic_error.

Inductive result (A : Type) : Type :=
| Ok (a : A)
| Throw (e : exn).

Arguments Ok {A} a.
Arguments Throw {A} e.

Definition bind {A B : Type} (r : result A) (k : A -> result B) : result B :=
  match r with
  | Ok a => k a
  | Throw e => Throw e
  end.

Notation "x <- r ;; k" := (bind r (fun x => k))
  (at level 61, r at next level, right associativity).

(** ** Machine integers *)

Definition uint32_t (z : Z) : Z := z mod 2 ^ 32.

(** ** Items *)

Inductive DocNamespace : Type :=
| DefaultCollection
| Collections
| System.

Module queue_op.
(** The operation of a queued item.  [set] and [system_event] are the two
    the sources name; [del] stands for a deletion and the last two for the
    checkpoint's own items ("the checkpoint start/end stuff"). *)
Inductive t : Type :=
| set
| del
| system_event
| checkpoint_start
| checkpoint_end.

Definition eqb (a b : t) : bool :=
  match a, b with
  | set, set | del, del | system_event, system_event
  | checkpoint_start, checkpoint_start
  | checkpoint_end, checkpoint_end => true
  | _, _ => false
  end.
End queue_op.

(** The members of [Item] that the embedded functions read or write. *)
Record Item : Type := mkItem {
  getKey : string;
  getDocNamespace : DocNamespace;
  getFlags : Z;          (* uint32_t *)
  getExptime : Z;
  getNBytes : Z;         (* size_t *)
  getBySeqno : Z;        (* int64_t *)
  getVBucketId : nat;    (* uint16_t, used as a vector index *)
  getOperation : queue_op.t;
  isDeleted : bool
}.

Definition setBySeqno (it : Item) (s : Z) : Item :=
  mkItem (getKey it) (getDocNamespace it) (getFlags it) (getExptime it)
         (getNBytes it) s (getVBucketId it) (getOperation it) (isDeleted it).

(** ** System events *)

Inductive SystemEvent : Type :=
| CreateCollection
| BeginDeleteCollection
| DeleteCollectionHard
| DeleteCollectionSoft
| CollectionsSeparatorChanged.

Definition SystemEvent_eqb (a b : SystemEvent) : bool :=
  match a, b with
  | CreateCollection, CreateCollection
  | BeginDeleteCollection, BeginDeleteCollection
  | DeleteCollectionHard, DeleteCollectionHard
  | DeleteCollectionSoft, DeleteCollectionSoft
  | CollectionsSeparatorChanged, CollectionsSeparatorChanged => true
  | _, _ => false
  end.

Definition all_events : list SystemEvent :=
  [CreateCollection; BeginDeleteCollection; DeleteCollectionHard;
   DeleteCollectionSoft; CollectionsSeparatorChanged].

(** The enumerators of [SystemEvent] are declared in [systemevent.h], which
    is not among the sources: their integer values are a parameter. *)
Class SystemEventValues : Type := enumerator : SystemEvent -> Z.

(** Enumerators of one enum that label the cases of one [switch] are
    pairwise distinct, and [uint32_t(se)] keeps their value. *)
Definition enumerators_distinct `{SystemEventValues} : Prop :=
  forall a b, enumerator a = enumerator b -> a = b.

Definition enumerators_fit `{SystemEventValues} : Prop :=
  forall a, 0 <= enumerator a < 2 ^ 32.

(** [SystemEvent(flags)] followed by a [switch] over the five enumerators:
    the case whose label equals the value, if any. *)
Definition SystemEvent_of_flags `{SystemEventValues} (flags : Z)
  : option SystemEvent :=
  find (fun e => enumerator e =? flags) all_events.

(** An assignment in declaration order, to instantiate the parameter. *)
Definition declared_values : SystemEventValues :=
  fun e =>
    match e with
    | CreateCollection => 0
    | BeginDeleteCollection => 1
    | DeleteCollectionHard => 2
    | DeleteCollectionSoft => 3
    | CollectionsSeparatorChanged => 4
    end.

Inductive ProcessStatus : Type :=
| Skip
| Continue.

(** ** Collections constants *)

Module CollectionsKeys.
(** Modelled from the spec: [Collections::CreateEventKey],
    [Collections::DeleteEventKey] and [Collections::SeparatorChangedKey] are
    declared in [collections/collections_types.h], which is not among the
    sources; the values are the key grammar of the specification
    ([$collections::create:<name>], [$collections::delete:<name>],
    [$collections::separator]). *)
Definition CreateEventKey : string := "$collections::create:".
Definition DeleteEventKey : string := "$collections::delete:".
Definition SeparatorChangedKey : string := "$collections::separator".
End CollectionsKeys.

(** ** Construction of items *)

(** What a freshly constructed [Item] holds in the members the caller does
    not pass: [item.h] is not among the sources, so they are parameters. *)
Class ItemDefaults : Type := {
  initial_bySeqno : Z;
  initial_vbucket : nat;
  initial_operation : queue_op.t
}.

(** Modelled from the spec: the constructor [Item(DocKey, flags, exptime,
    data, nbytes)] of [item.h], which is not among the sources.  The key, its
    namespace, the flags, the expiry and the size are the arguments; the
    operation of an item in the [System] namespace is [system_event] ("the
    operation is system_event; the SystemEvent code is stored in flags");
    a new item is not deleted. *)
Definition Item_new `{ItemDefaults} (key : string) (ns : DocNamespace)
    (flags exptime nbytes : Z) : Item :=
  mkItem key ns flags exptime nbytes initial_bySeqno initial_vbucket
         (match ns with
          | System => queue_op.system_event
          | _ => initial_operation
          end)
         false.

(** ** [SystemEventFactory] *)

Module SystemEventFactory.
Import CollectionsKeys.

(** One [case] of the [switch] in [make]: its label, the assignment it
    makes to the local [key], and whether it ends in [break]. *)
Record arm : Type := mkArm {
  label : SystemEvent;
  body : string -> string;
  breaks : bool
}.

(** The five cases of [make], in source order.  The cases of
    [DeleteCollectionHard] and [DeleteCollectionSoft] have no [break]. *)
Definition make_arms (keyExtra : string) : list arm :=
  [ mkArm CreateCollection
          (fun _ => (CreateEventKey ++ keyExtra)%string) true;
    mkArm BeginDeleteCollection
          (fun _ => (DeleteEventKey ++ keyExtra)%string) true;
    mkArm DeleteCollectionHard
          (fun _ => (CreateEventKey ++ keyExtra)%string) false;
    mkArm DeleteCollectionSoft
          (fun _ => (CreateEventKey ++ keyExtra)%string) false;
    mkArm CollectionsSeparatorChanged
          (fun _ => SeparatorChangedKey) true ].

(** C++ [switch]: control enters at the case whose label is [se] and runs
    the bodies in order until one ends in [break] ([entered] records that
    control is already inside the switch). *)
Fixpoint run_switch (arms : list arm) (entered : bool) (se : SystemEvent)
    (key : string) : string :=
  match arms with
  | [] => key
  | a :: rest =>
      if entered || SystemEvent_eqb (label a) se then
        let key' := body a key in
        if breaks a then key' else run_switch rest true se key'
      else run_switch rest false se key
  end.

Definition make_key (se : SystemEvent) (keyExtra : string) : string :=
  run_switch (make_arms keyExtra) false se EmptyString.

Definition make `{SystemEventValues} `{ItemDefaults} (se : SystemEvent)
    (keyExtra : string) (itemSize : Z) (seqno : option Z) : Item :=
  let key := make_key se keyExtra in
  let item := Item_new key System (uint32_t (enumerator se)) 0 itemSize in
  match seqno with
  | Some s => setBySeqno item s
  | None => item
  end.
End SystemEventFactory.

(** ** [SystemEventFlush] *)

Module SystemEventFlush.

(** The object holds one shared pointer, null until an item is saved. *)
Record t : Type := mk {
  collectionManifestItem : option Item
}.

Definition empty : t := mk None.

Definition getCollectionsManifestItem (f : t) : option Item :=
  collectionManifestItem f.

Definition saveCollectionsManifestItem (f : t) (item : Item) : t :=
  let present :=
    match collectionManifestItem f with Some _ => true | None => false end in
  let higher :=
    match collectionManifestItem f with
    | Some cur => getBySeqno item >? getBySeqno cur
    | None => false
    end in
  if (present && higher) || negb present then mk (Some item) else f.

Definition process `{SystemEventValues} (f : t) (item : Item)
  : result (ProcessStatus * t) :=
  if negb (queue_op.eqb (getOperation item) queue_op.system_event) then
    Ok (Continue, f)
  else
    match SystemEvent_of_flags (getFlags item) with
    | Some CreateCollection
    | Some DeleteCollectionHard
    | Some DeleteCollectionSoft
    | Some CollectionsSeparatorChanged =>
        Ok (Continue, saveCollectionsManifestItem f item)
    | Some BeginDeleteCollection =>
        Ok (Skip, saveCollectionsManifestItem f item)
    | None => Throw invalid_argument
    end.

Definition isUpsert `{SystemEventValues} (item : Item) : result bool :=
  if queue_op.eqb (getOperation item) queue_op.system_event then
    match SystemEvent_of_flags (getFlags item) with
    | Some CreateCollection
    | Some CollectionsSeparatorChanged => Ok true
    | Some BeginDeleteCollection => Throw invalid_argument
    | Some DeleteCollectionHard
    | Some DeleteCollectionSoft => Ok false
    | None => Throw invalid_argument
    end
  else Ok (negb (isDeleted item)).

(** A batch: [process] applied to the queued items in order, as the flusher
    does with one [SystemEventFlush] object per batch. *)
Fixpoint process_all `{SystemEventValues} (f : t) (items : list Item)
  : result t :=
  match items with
  | [] => Ok f
  | item :: rest =>
      r <- process f item ;;
      process_all (snd r) rest
  end.
End SystemEventFlush.

(** ** [SystemEventReplicate] *)

Module SystemEventReplicate.
Section Process.
(** [Item::shouldReplicate] is defined in [item.h], which is not among the
    sources: it is a parameter. *)
Variable shouldReplicate : Item -> bool.
Context `{SystemEventValues}.

Definition process (item : Item) : ProcessStatus :=
  if shouldReplicate item then
    if negb (queue_op.eqb (getOperation item) queue_op.system_event) then
      Continue
    else
      match SystemEvent_of_flags (getFlags item) with
      | Some CreateCollection
      | Some BeginDeleteCollection
      | Some CollectionsSeparatorChanged => Continue
      | Some DeleteCollectionHard
      | Some DeleteCollectionSoft => Skip
      | None => Skip
      end
  else Skip.
End Process.
End SystemEventReplicate.

(** ** [CouchKVStore]: the transaction methods of couch-kvstore.h *)

Module CouchKVStore.

(** A [CouchRequest], by the arguments of its constructor (the completion
    callback, which no method below calls, is left out). *)
Record CouchRequest : Type := mkRequest {
  request_item : Item;
  fileRevNum : Z;
  deleteItem : bool;
  persistDocNamespace : bool
}.

(** The members of the store that [begin], [rollback] and the request queue
    use.  [readOnly] is what [isReadOnly()] of the base class returns. *)
Record t : Type := mk {
  readOnly : bool;
  intransaction : bool;
  pendingReqsQ : list CouchRequest;
  dbFileRevMap : list Z
}.

Definition isReadOnly (s : t) : bool := readOnly s.

Definition set_intransaction (s : t) (b : bool) : t :=
  mk (readOnly s) b (pendingReqsQ s) (dbFileRevMap s).

Definition push_back (s : t) (r : CouchRequest) : t :=
  mk (readOnly s) (intransaction s) (pendingReqsQ s ++ [r]) (dbFileRevMap s).

(** [bool begin()]: the returned flag and the store afterwards. *)
Definition begin (s : t) : result (bool * t) :=
  if isReadOnly s then Throw logic_error
  else
    let s' := set_intransaction s true in
    Ok (intransaction s', s').

(** [void rollback()]. *)
Definition rollback (s : t) : result t :=
  if isReadOnly s then Throw logic_error
  else if intransaction s then Ok (set_intransaction s false)
  else Ok s.

(** [MockCouchKVStore::setAndReturnRequest] of kvstore_test.cc, which
    "mocks original code" of [set].  The outer [option] is [None] where the
    C++ program has no defined behaviour: [dbFileRevMap] indexed outside the
    vector. *)
Definition setAndReturnRequest (s : t) (itm : Item)
  : option (result (CouchRequest * t)) :=
  if isReadOnly s then Some (Throw logic_error)
  else if negb (intransaction s) then Some (Throw invalid_argument)
  else
    let deleteItem := false in
    match nth_error (dbFileRevMap s) (getVBucketId itm) with
    | None => None
    | Some fileRev =>
        let req := mkRequest itm fileRev deleteItem false in
        Some (Ok (req, push_back s req))
    end.
End CouchKVStore.

(** ** Byte order *)

Inductive endianness : Type :=
| LittleEndian
| BigEndian.

Definition byte_of_Z (z : Z) : Byte.byte :=
  match Byte.of_N (Z.to_N (z mod 256)) with
  | Some b => b
  | None => Byte.x00
  end.

Definition Z_of_byte (b : Byte.byte) : Z := Z.of_N (Byte.to_N b).

(** The integer a run of bytes denotes, most significant byte first. *)
Definition be_load (bs : list Byte.byte) : Z :=
  fold_left (fun acc b => acc * 256 + Z_of_byte b) bs 0.

(** The [n] bytes of [x], most significant first. *)
Fixpoint be_bytes (n : nat) (x : Z) : list Byte.byte :=
  match n with
  | O => []
  | S n' => byte_of_Z (x / 256 ^ Z.of_nat n') :: be_bytes n' x
  end.

Definition le_bytes (n : nat) (x : Z) : list Byte.byte := rev (be_bytes n x).

(** The object representation of an [n]-byte unsigned integer on the host,
    and the value a host reads from such a representation. *)
Definition host_bytes (h : endianness) (n : nat) (x : Z) : list Byte.byte :=
  match h with
  | LittleEndian => le_bytes n x
  | BigEndian => be_bytes n x
  end.

Definition host_load (h : endianness) (bs : list Byte.byte) : Z :=
  match h with
  | LittleEndian => be_load (rev bs)
  | BigEndian => be_load bs
  end.

Definition byteswap (n : nat) (x : Z) : Z := be_load (le_bytes n x).

Definition htonl (h : endianness) (x : Z) : Z :=
  match h with
  | LittleEndian => byteswap 4 x
  | BigEndian => x
  end.

Definition htonll (h : endianness) (x : Z) : Z :=
  match h with
  | LittleEndian => byteswap 8 x
  | BigEndian => x
  end.

Definition ntohl : endianness -> Z -> Z := htonl.
Definition ntohll : endianness -> Z -> Z := htonll.

(** ** The metadata codec *)

Module MetaData.

Inductive Version : Type :=
| V0
| V1
| V2.

(** Modelled from the spec: [MetaData::getMetaDataSize] of
    [couch-kvstore-metadata.h], which is not among the sources; the sizes
    are those of the data model (V0 16 bytes, V1 18, V2 19), which the test
    [CouchKVStoreMetaData.basic] locks down. *)
Definition getMetaDataSize (v : Version) : nat :=
  match v with
  | V0 => 16
  | V1 => 16 + 2
  | V2 => 16 + 2 + 1
  end.

Definition PROTOCOL_BINARY_RAW_BYTES : Byte.byte := Byte.x00.

(** The record overlaid on the buffer: the three V0 fields as the host
    loads them from the bytes, the two V1 extension bytes, and the version
    the object was initialised from. *)
Record t : Type := mk {
  raw_cas : Z;
  raw_exptime : Z;
  raw_flags : Z;
  flexCode : Byte.byte;
  dataType : Byte.byte;
  initVersion : Version
}.

(** Modelled from the spec: the size classes of [MetaDataFactory::create]:
    "classifies [buf.size] into {V0=16, V1=18, V2=19}; any other size is
    fatal". *)
Definition classify (size : nat) : option Version :=
  if Nat.eqb size (getMetaDataSize V0) then Some V0
  else if Nat.eqb size (getMetaDataSize V1) then Some V1
  else if Nat.eqb size (getMetaDataSize V2) then Some V2
  else None.

Section Codec.
(** The byte order of the host. *)
Variable host : endianness.
(** [FLEX_META_CODE], the flex marker a record upgraded from V0 receives;
    its value is defined outside the sources. *)
Variable FLEX_META_CODE : Byte.byte.

Definition slice (from len : nat) (buf : list Byte.byte) : list Byte.byte :=
  firstn len (skipn from buf).

(** Modelled from the spec: [MetaDataFactory::createMetaData(buf)] of
    [couch-kvstore-metadata.h], which is not among the sources.  A 16-byte
    buffer holds CAS, expiry and flags and is upgraded to V1 in memory
    (flex marker set, datatype raw); an 18-byte buffer adds the two
    extension bytes; a 19-byte buffer is read as V1, its last byte dropped;
    any other size is a [std::logic_error], as the test
    [CouchKVStoreMetaData.overlay] expects. *)
Definition createMetaData (buf : list Byte.byte) : result t :=
  match classify (List.length buf) with
  | Some V0 =>
      Ok (mk (host_load host (slice 0 8 buf))
             (host_load host (slice 8 4 buf))
             (host_load host (slice 12 4 buf))
             FLEX_META_CODE PROTOCOL_BINARY_RAW_BYTES V0)
  | Some V1 | Some V2 =>
      Ok (mk (host_load host (slice 0 8 buf))
             (host_load host (slice 8 4 buf))
             (host_load host (slice 12 4 buf))
             (nth 16 buf Byte.x00) (nth 17 buf Byte.x00) V1)
  | None => Throw logic_error
  end.

(** Modelled from the spec: the accessors.  "CAS is stored big-endian on
    disk ... the codec performs the swap"; the expiry is swapped alike and
    the flags are handed over as they are. *)
Definition getCas (m : t) : Z := ntohll host (raw_cas m).
Definition getExptime (m : t) : Z := ntohl host (raw_exptime m).
Definition getFlags (m : t) : Z := raw_flags m.
Definition getDataType (m : t) : Byte.byte := dataType m.
Definition getFlexCode (m : t) : Byte.byte := flexCode m.
Definition getVersionInitialisedFrom (m : t) : Version := initVersion m.

(** Modelled from the spec: [copyToBuf]: "writes always project to V1 on
    disk (18 bytes)". *)
Definition copyToBuf (m : t) : list Byte.byte :=
  host_bytes host 8 (raw_cas m) ++ host_bytes host 4 (raw_exptime m)
  ++ host_bytes host 4 (raw_flags m) ++ [flexCode m; dataType m].
End Codec.
End MetaData.

(** ** Reading an item back: the metadata part of [get] *)

Inductive ENGINE_ERROR_CODE : Type :=
| ENGINE_SUCCESS
| ENGINE_KEY_ENOENT
| ENGINE_TMPFAIL.

(** What the callback of [get] observes of the item's metadata. *)
Record GetValue : Type := mkGetValue {
  gv_cas : Z;
  gv_exptime : Z;
  gv_flags : Z;
  gv_datatype : Byte.byte
}.

(** Modelled from the spec: the metadata part of [CouchKVStore::get]
    ([couch-kvstore.cc] is not among the sources): the [rev_meta] bytes of
    the stored document are decoded by the codec; malformed metadata gives
    [TempFail], otherwise the item carries the decoded fields. *)
Definition get_metadata (host : endianness) (flex : Byte.byte)
    (rev_meta : list Byte.byte) : ENGINE_ERROR_CODE * option GetValue :=
  match MetaData.createMetaData host flex rev_meta with
  | Ok m =>
      (ENGINE_SUCCESS,
       Some (mkGetValue (MetaData.getCas host m) (MetaData.getExptime host m)
                        (MetaData.getFlags m) (MetaData.getDataType m)))
  | Throw _ => (ENGINE_TMPFAIL, None)
  end.

(** ** [MockCouchRequest] of kvstore_test.cc *)

Module MockCouchRequest.

(** The test's own [MetaData] struct. *)
Record MetaData : Type := mkMetaData {
  cas : Z;               (* uint64_t *)
  expiry : Z;            (* uint32_t *)
  flags : Z;             (* uint32_t *)
  ext1 : Byte.byte;
  ext2 : Byte.byte;
  legacyDeleted : Byte.byte
}.

Definition sizeofV0 : nat := 16.
Definition sizeofV1 : nat := 18.
Definition sizeofV2 : nat := 19.

(** The default constructor: every member zero. *)
Definition MetaData_new : MetaData :=
  mkMetaData 0 0 0 Byte.x00 Byte.x00 Byte.x00.

(** The object representation of the struct up to its last member: the
    members lie at offsets 0, 8, 12, 16, 17 and 18. *)
Definition object_bytes (host : endianness) (meta : MetaData)
  : list Byte.byte :=
  host_bytes host 8 (cas meta) ++ host_bytes host 4 (expiry meta)
  ++ host_bytes host 4 (flags meta)
  ++ [ext1 meta; ext2 meta; legacyDeleted meta].

(** [writeMetaData(meta, size)]: [memcpy] of the first [size] bytes of the
    struct into [rev_meta].  Bytes after [legacyDeleted] are padding, so the
    result is [None] for a [size] that reaches into them. *)
Definition writeMetaData (host : endianness) (meta : MetaData) (size : nat)
  : option (list Byte.byte) :=
  if Nat.leb size sizeofV2 then Some (firstn size (object_bytes host meta))
  else None.
End MockCouchRequest.

(** ** Persisting and reading back: the store of the metadata tests *)

Module Couchstore.

(** What a vbucket file keeps of a document, as far as its metadata goes:
    the [rev_meta] bytes of the docinfo and the deleted bit of the docinfo
    (the body plays no part in what follows). *)
Record StoredDoc : Type := mkStoredDoc {
  stored_rev_meta : list Byte.byte;
  stored_deleted : bool
}.

(** The documents written so far, by vbucket and key, the newest first. *)
Definition Disk : Type := list (nat * string * StoredDoc).

Fixpoint lookup (d : Disk) (vb : nat) (key : string) : option StoredDoc :=
  match d with
  | [] => None
  | (vb', key', doc) :: rest =>
      if Nat.eqb vb' vb && String.eqb key' key then Some doc
      else lookup rest vb key
  end.

(** The store with what the tests reach behind its interface: next to the
    members of [CouchKVStore], the [dbDocInfo.rev_meta] of each pending
    request (in queue order) and the files. *)
Record t : Type := mk {
  kvstore : CouchKVStore.t;
  rev_metas : list (list Byte.byte);
  disk : Disk
}.

Fixpoint replace_nth {A : Type} (i : nat) (x : A) (l : list A)
  : option (list A) :=
  match l, i with
  | [], _ => None
  | _ :: rest, O => Some (x :: rest)
  | y :: rest, S i' => option_map (cons y) (replace_nth i' x rest)
  end.

Definition begin (st : t) : result (bool * t) :=
  r <- CouchKVStore.begin (kvstore st) ;;
  Ok (fst r, mk (snd r) (rev_metas st) (disk st)).

Section Requests.
(** The metadata the constructor of [CouchRequest] derives from the item;
    the constructor is defined in [couch-kvstore.cc], which is not among
    the sources, so it is a parameter. *)
Variable initial_rev_meta : Item -> list Byte.byte.

(** [setAndReturnRequest]: the request is queued with the metadata its
    constructor gave it. *)
Definition setAndReturnRequest (st : t) (itm : Item)
  : option (result (CouchKVStore.CouchRequest * t)) :=
  match CouchKVStore.setAndReturnRequest (kvstore st) itm with
  | None => None
  | Some (Throw e) => Some (Throw e)
  | Some (Ok (req, s')) =>
      Some (Ok (req, mk s' (rev_metas st ++ [initial_rev_meta itm])
                        (disk st)))
  end.
End Requests.

(** [request->writeMetaData(meta, size)] on the pending request at
    position [i] of the queue: its [rev_meta] becomes the first [size]
    bytes of the test's struct. *)
Definition writeMetaData (host : endianness) (st : t) (i : nat)
    (meta : MockCouchRequest.MetaData) (size : nat) : option t :=
  match MockCouchRequest.writeMetaData host meta size with
  | None => None
  | Some bytes =>
      option_map (fun metas => mk (kvstore st) metas (disk st))
                 (replace_nth i bytes (rev_metas st))
  end.

(** One document per pending request, written in queue order. *)
Definition write_docs (reqs : list CouchKVStore.CouchRequest)
    (metas : list (list Byte.byte)) (d : Disk) : Disk :=
  fold_left
    (fun d' p =>
       (getVBucketId (CouchKVStore.request_item (fst p)),
        getKey (CouchKVStore.request_item (fst p)),
        mkStoredDoc (snd p) (CouchKVStore.deleteItem (fst p))) :: d')
    (combine reqs metas) d.

(** Modelled from the spec: [CouchKVStore::commit(nullptr)], whose body is
    in [couch-kvstore.cc], not among the sources.  "For each enqueued
    request, materialize a (document, docinfo) pair", persist the batch and
    "release the transaction"; the metadata of a document is the [rev_meta]
    of its request, the deleted bit that of a deletion.  A read-only
    instance rejects it with a logic error; outside a transaction nothing is
    written (the header: "commit a transaction (unless not currently in
    one)").  File errors are outside the model: the writes succeed. *)
Definition commit (st : t) : result (bool * t) :=
  if CouchKVStore.isReadOnly (kvstore st) then Throw logic_error
  else if CouchKVStore.intransaction (kvstore st) then
    Ok (true,
        mk (CouchKVStore.mk false false []
                            (CouchKVStore.dbFileRevMap (kvstore st)))
           []
           (write_docs (CouchKVStore.pendingReqsQ (kvstore st))
                       (rev_metas st) (disk st)))
  else Ok (true, st).

(** Modelled from the spec: [CouchKVStore::get(key, vb, cb, fetchDelete)],
    whose body is in [couch-kvstore.cc], not among the sources: the status
    and the metadata of the item handed to the callback.  A key that is not
    in the file, or is deleted there while deleted items are not asked for,
    is [KeyNotFound]; otherwise the stored [rev_meta] is decoded, malformed
    metadata gives [TempFail], and the item carries the decoded fields. *)
Definition get (host : endianness) (flex : Byte.byte) (st : t)
    (key : string) (vb : nat) (fetchDelete : bool)
  : ENGINE_ERROR_CODE * option GetValue :=
  match lookup (disk st) vb key with
  | None => (ENGINE_KEY_ENOENT, None)
  | Some doc =>
      if stored_deleted doc && negb fetchDelete then (ENGINE_KEY_ENOENT, None)
      else get_metadata host flex (stored_rev_meta doc)
  end.
End Couchstore.

(** ** [SystemEventProducerMessage] *)

Module SystemEventProducerMessage.

(** The message, by the arguments of its private constructor. *)
Record t : Type := mk {
  msg_opaque : Z;
  msg_item : Item;
  msg_key : string;
  msg_eventData : list Byte.byte
}.

Section Make.
Context `{SystemEventValues}.
(** [Collections::VB::Manifest::getSystemEventData] and
    [getSystemEventSeparatorData] are defined with the vbucket manifest,
    which is not among the sources: they are parameters, applied to the item
    whose value ([getData], [getNBytes]) they read. *)
Variable getSystemEventData : Item -> string * list Byte.byte.
Variable getSystemEventSeparatorData : Item -> string * list Byte.byte.

(** [make(opaque, item)].  [dcpData] is default-constructed (two empty
    buffers) and stays so when no case of the switch is taken. *)
Definition make (opaque : Z) (item : Item) : result t :=
  let dcpData : string * list Byte.byte := (EmptyString, []) in
  match SystemEvent_of_flags (getFlags item) with
  | Some CreateCollection
  | Some BeginDeleteCollection =>
      let dcpData := getSystemEventData item in
      Ok (mk opaque item (fst dcpData) (snd dcpData))
  | Some CollectionsSeparatorChanged =>
      let dcpData := getSystemEventSeparatorData item in
      Ok (mk opaque item (fst dcpData) (snd dcpData))
  | Some DeleteCollectionHard
  | Some DeleteCollectionSoft => Throw logic_error
  | None => Ok (mk opaque item (fst dcpData) (snd dcpData))
  end.
End Make.
End SystemEventProducerMessage.

(** ** [CouchKVStore]: further inline methods and the write loop *)

Definition htons (h : endianness) (x : Z) : Z :=
  match h with
  | LittleEndian => byteswap 2 x
  | BigEndian => x
  end.

Definition ntohs : endianness -> Z -> Z := htons.

Module CouchKVStoreInline.
Import CouchKVStore.

(** [getNumVbsPerFile()]. *)
Definition getNumVbsPerFile : Z := 1.

(** [getDBFileId(req)]: [ntohs] of the [vbucket] field of the request
    header, given here as the 16-bit value the host loads from it. *)
Definition getDBFileId (host : endianness) (request_vbucket : Z) : Z :=
  ntohs host request_vbucket.

(** The write loop of [populate_items] in kvstore_test.cc after its
    [begin()]: one [set] per item, in order ([setAndReturnRequest] stands
    for [set], whose code it mirrors).  The loop stops at the first call
    that throws or has no defined behaviour. *)
Fixpoint set_each (s : t) (items : list Item) : option (result t) :=
  match items with
  | [] => Some (Ok s)
  | itm :: rest =>
      match setAndReturnRequest s itm with
      | Some (Ok (_, s')) => set_each s' rest
      | Some (Throw e) => Some (Throw e)
      | None => None
      end
  end.
End CouchKVStoreInline.

(** ** common.hh *)

Module common.

(** [struct timeval]: both members are signed integers. *)
Record timeval : Type := mk_timeval {
  tv_sec : Z;
  tv_usec : Z
}.

Definition less_tv (tv1 tv2 : timeval) : bool :=
  if tv_sec tv1 =? tv_sec tv2 then tv_usec tv1 <? tv_usec tv2
  else tv_sec tv1 <? tv_sec tv2.
End common.

(** ** The checker of the test [CollectionsTest.checkpoint_consistency] *)

Module CheckpointConsistency.

(** [c_str()]: the characters up to the first NUL. *)
Fixpoint c_str (s : string) : string :=
  match s with
  | EmptyString => EmptyString
  | String c rest =>
      if Ascii.eqb c Ascii.zero then EmptyString else String c (c_str rest)
  end.

(** [std::strstr(hay, needle)] converted to [bool]: does [needle] occur in
    [hay]. *)
Fixpoint strstr (hay needle : string) : bool :=
  String.prefix needle hay ||
  match hay with
  | EmptyString => false
  | String _ rest => strstr rest needle
  end.

Section Checker.
Context `{SystemEventValues}.

(** The two conditions of the loop body that flip [open]. *)
Definition is_create_fruit (item : Item) : bool :=
  queue_op.eqb (getOperation item) queue_op.system_event
  && (enumerator CreateCollection =? getFlags item)
  && strstr (c_str (getKey item)) "fruit".

Definition is_begin_delete_fruit (item : Item) : bool :=
  queue_op.eqb (getOperation item) queue_op.system_event
  && (enumerator BeginDeleteCollection =? getFlags item)
  && strstr (c_str (getKey item)) "fruit".

(** The items the loop does not skip with [continue]. *)
Definition is_checked (item : Item) : bool :=
  queue_op.eqb (getOperation item) queue_op.system_event
  || queue_op.eqb (getOperation item) queue_op.set.

(** The locals of the loop, and [passed]: no [EXPECT_] has failed so far
    (a failed [EXPECT_] is recorded and the loop goes on). *)
Record loop_state : Type := mk_state {
  open : bool;
  seqno : option Z;
  passed : bool
}.

Definition initial_state : loop_state := mk_state false None true.

(** One iteration of the loop body. *)
Definition loop_body (st : loop_state) (item : Item) : loop_state :=
  if negb (is_checked item) then st
  else
    let expect_lt :=
      match seqno st with
      | Some s => s <? getBySeqno item
      | None => true
      end in
    let open1 := if is_create_fruit item then true else open st in
    let open2 := if is_begin_delete_fruit item then false else open1 in
    let expect_open :=
      if queue_op.eqb (getOperation item) queue_op.set then open2 else true in
    mk_state open2 (Some (getBySeqno item))
             (passed st && expect_lt && expect_open).

(** The verdict on the items of the checkpoint: [ASSERT_FALSE(items.empty())]
    ends the test at once, otherwise every expectation of the loop has to
    hold. *)
Definition check (items : list Item) : bool :=
  match items with
  | [] => false
  | _ => passed (fold_left loop_body items initial_state)
  end.
End Checker.
End CheckpointConsistency.

(** ** Vocabulary of the statements *)

Definition is_system_event (item : Item) : bool :=
  queue_op.eqb (getOperation item) queue_op.system_event.

(** The flags of the item are one of the five event codes. *)
Definition has_known_event `{SystemEventValues} (item : Item) : bool :=
  match SystemEvent_of_flags (getFlags item) with
  | Some _ => true
  | None => false
  end.

(** The system events of a batch, in queue order. *)
Definition system_events (items : list Item) : list Item :=
  filter is_system_event items.

(** [it] has the highest [bySeqno] of [items] and is one of them. *)
Definition highest_of (it : Item) (items : list Item) : Prop :=
  In it items /\ forall it', In it' items -> getBySeqno it' <= getBySeqno it.

(** Sample items for the concrete instances below. *)
Definition sample_event (se : SystemEvent) (name : string) (seqno : Z) : Item :=
  mkItem name System (declared_values se) 0 0 seqno 0
         queue_op.system_event false.

Definition sample_set (key : string) (seqno : Z) : Item :=
  mkItem key DefaultCollection 0 0 5 seqno 0 queue_op.set false.

Definition sample_defaults : ItemDefaults :=
  {| initial_bySeqno := -1; initial_vbucket := 0%nat;
     initial_operation := queue_op.set |}.

(** A read/write store with one vbucket file at revision 1, nothing
    queued and no transaction open, and its read-only sibling. *)
Definition sample_rw_store : CouchKVStore.t :=
  CouchKVStore.mk false false [] [1].

Definition sample_ro_store : CouchKVStore.t :=
  CouchKVStore.mk true false [] [1].

(** The metadata the test [CouchstoreTest.fuzzV0] writes. *)
Definition fuzzV0_meta : MockCouchRequest.MetaData :=
  MockCouchRequest.mkMetaData 0xf00fcafe11225566 0xaa00bb11 0x01020304
                              Byte.x00 Byte.x00 Byte.x00.

(** The items of a checkpoint the consistency check looks at, and their
    sequence numbers in queue order. *)
Definition checked_seqnos `{SystemEventValues} (items : list Item) : list Z :=
  map getBySeqno (filter CheckpointConsistency.is_checked items).

(** Somewhere in [pre] the collection was created and its deletion has not
    begun since. *)
Definition fruit_open_after `{SystemEventValues} (pre : list Item) : Prop :=
  exists p1 c p2,
    pre = p1 ++ c :: p2 /\
    CheckpointConsistency.is_create_fruit c = true /\
    Forall (fun x => CheckpointConsistency.is_begin_delete_fruit x = false) p2.

(** A time value whose microseconds are within one second. *)
Definition normalised (tv : common.timeval) : Prop :=
  0 <= common.tv_usec tv < 1000000.

Definition microseconds (tv : common.timeval) : Z :=
  common.tv_sec tv * 1000000 + common.tv_usec tv.

(** The request a [set] of [itm] queues on store [s], if the item's
    vbucket has a file revision. *)
Definition request_for (s : CouchKVStore.t) (itm : Item)
  : option CouchKVStore.CouchRequest :=
  option_map (fun rev => CouchKVStore.mkRequest itm rev false false)
             (nth_error (CouchKVStore.dbFileRevMap s) (getVBucketId itm)).

(** [open] of the consistency check after one more item, as the loop body
    computes it. *)
Definition open_next `{SystemEventValues} (item : Item) (o : bool) : bool :=
  if CheckpointConsistency.is_begin_delete_fruit item then false
  else if CheckpointConsistency.is_create_fruit item then true else o.

(** The collection is open after [pre], having been open or not before. *)
Definition opened `{SystemEventValues} (o : bool) (pre : list Item) : Prop :=
  (o = true /\
   Forall (fun x => CheckpointConsistency.is_begin_delete_fruit x = false)
          pre) \/
  fruit_open_after pre.

(** The sequence numbers [l] ascend strictly, and from [last] if there is
    one. *)
Definition seqnos_ascend (last : option Z) (l : list Z) : Prop :=
  match last with
  | None => Sorted Z.lt l
  | Some s => Sorted Z.lt (s :: l)
  end.

(** Further sample items: a set in the fruit collection, a system event
    whose flags are no event code, and stand-ins for the two functions that
    extract the DCP data of an event. *)
Definition sample_fruit_set (key : string) (seqno : Z) : Item :=
  mkItem key Collections 0 0 5 seqno 0 queue_op.set false.

Definition sample_unknown_event : Item :=
  mkItem "$collections::create:meat" System 99 0 0 3 0
         queue_op.system_event false.

Definition sample_event_data (item : Item) : string * list Byte.byte :=
  (getKey item, []).

(** The store of the test fixture [CouchstoreTest] before a test body runs:
    read/write, nothing pending, nothing in the file of vbucket 0. *)
Definition sample_couchstore : Couchstore.t :=
  Couchstore.mk sample_rw_store [] [].

(** * Properties *)

Lemma queue_op_eqb_spec a b : reflect (a = b) (queue_op.eqb a b).
Proof. destruct a, b; simpl; constructor; congruence. Qed.

Lemma SystemEvent_eqb_spec a b : reflect (a = b) (SystemEvent_eqb a b).
Proof. destruct a, b; simpl; constructor; congruence. Qed.

Lemma is_system_event_true item :
  is_system_event item = true <-> getOperation item = queue_op.system_event.
Proof.
  unfold is_system_event.
  destruct (queue_op_eqb_spec (getOperation item) queue_op.system_event);
    split; congruence.
Qed.

Lemma declared_values_distinct : @enumerators_distinct declared_values.
Proof. intros [] []; cbv; congruence. Qed.

Lemma declared_values_fit : @enumerators_fit declared_values.
Proof. intros []; cbv; split; congruence. Qed.

Lemma SystemEvent_of_flags_enumerator `{SystemEventValues} :
  enumerators_distinct ->
  forall e, SystemEvent_of_flags (enumerator e) = Some e.
Proof.
  intros Hinj e. unfold SystemEvent_of_flags.
  destruct (find _ all_events) as [e'|] eqn:Hf.
  - apply find_some in Hf. destruct Hf as [_ Hf].
    apply Z.eqb_eq in Hf. f_equal. now apply Hinj.
  - assert (Hin : In e all_events) by (destruct e; simpl; tauto).
    pose proof (find_none _ _ Hf e Hin) as Hn. simpl in Hn.
    rewrite Z.eqb_refl in Hn. discriminate.
Qed.

Lemma SystemEvent_of_flags_sound `{SystemEventValues} flags e :
  SystemEvent_of_flags flags = Some e -> enumerator e = flags.
Proof.
  unfold SystemEvent_of_flags. intros Hf.
  apply find_some in Hf. now apply Z.eqb_eq.
Qed.

(** ** [SystemEventFactory::make] *)

Section Factory.
Import CollectionsKeys SystemEventFactory.
Context `{SystemEventValues} `{ItemDefaults}.

Lemma make_key_CreateCollection n :
  make_key CreateCollection n = (CreateEventKey ++ n)%string.
Proof. reflexivity. Qed.

Lemma make_key_BeginDeleteCollection n :
  make_key BeginDeleteCollection n = (DeleteEventKey ++ n)%string.
Proof. reflexivity. Qed.

Lemma make_key_CollectionsSeparatorChanged n :
  make_key CollectionsSeparatorChanged n = SeparatorChangedKey.
Proof. reflexivity. Qed.

(** Control that enters at [DeleteCollectionHard] or [DeleteCollectionSoft]
    runs on into the [CollectionsSeparatorChanged] case. *)
Lemma make_key_delete_falls_through n :
  make_key DeleteCollectionHard n = SeparatorChangedKey /\
  make_key DeleteCollectionSoft n = SeparatorChangedKey.
Proof. split; reflexivity. Qed.

Lemma create_key_is_not_separator_key n :
  (CreateEventKey ++ n)%string <> SeparatorChangedKey.
Proof. unfold CreateEventKey, SeparatorChangedKey. simpl. congruence. Qed.

Lemma make_namespace_flags se n sz seqno :
  getDocNamespace (make se n sz seqno) = System /\
  getFlags (make se n sz seqno) = uint32_t (enumerator se) /\
  getOperation (make se n sz seqno) = queue_op.system_event.
Proof. unfold make. destruct seqno; simpl; auto. Qed.

Lemma make_key_of se n sz seqno :
  getKey (make se n sz seqno) = make_key se n.
Proof. unfold make. destruct seqno; reflexivity. Qed.

Lemma make_seqno se n sz s :
  getBySeqno (make se n sz (Some s)) = s.
Proof. reflexivity. Qed.

(** The flags of a made item decode back to the event it was made for. *)
Lemma make_flags_decode se n sz seqno :
  enumerators_distinct -> enumerators_fit ->
  SystemEvent_of_flags (getFlags (make se n sz seqno)) = Some se.
Proof.
  intros Hd Hfit.
  destruct (make_namespace_flags se n sz seqno) as (_ & Hflags & _).
  rewrite Hflags. unfold uint32_t.
  rewrite Z.mod_small by apply Hfit.
  now apply SystemEvent_of_flags_enumerator.
Qed.

(** C1 (as the code behaves).  For every collection name [n],
    [SystemEventFactory::make] applied to [DeleteCollectionHard] or
    [DeleteCollectionSoft] returns an item in [DocNamespace::System] whose
    flags hold the event code, but whose key is the fixed separator key
    [$collections::separator], which differs from the create-event key
    [$collections::create:] followed by [n] that the claim (and the comments
    in the two cases) name: neither case ends in [break]. *)
Theorem make_delete_event_has_separator_key (se : SystemEvent) (n : string)
    (sz : Z) (seqno : option Z) :
  se = DeleteCollectionHard \/ se = DeleteCollectionSoft ->
  getKey (make se n sz seqno) = SeparatorChangedKey /\
  getKey (make se n sz seqno) <> (CreateEventKey ++ n)%string /\
  getKey (make se n sz seqno)
    <> getKey (make CreateCollection n sz seqno) /\
  getDocNamespace (make se n sz seqno) = System /\
  getFlags (make se n sz seqno) = uint32_t (enumerator se).
Proof.
  intros Hse.
  assert (Hk : getKey (make se n sz seqno) = SeparatorChangedKey).
  { rewrite make_key_of. destruct Hse; subst se; reflexivity. }
  pose proof (create_key_is_not_separator_key n) as Hne.
  repeat split.
  - exact Hk.
  - rewrite Hk. congruence.
  - rewrite Hk, make_key_of, make_key_CreateCollection. congruence.
  - apply make_namespace_flags.
  - apply make_namespace_flags.
Qed.
End Factory.

(** C1 at the collection [meat]: the key of the hard-delete event. *)
Lemma make_delete_event_has_separator_key_witness :
  getKey (@SystemEventFactory.make declared_values sample_defaults
            DeleteCollectionHard "meat" 0 (Some 7))
  = "$collections::separator"%string.
Proof.
  exact (proj1 (@make_delete_event_has_separator_key
                  declared_values sample_defaults
                  DeleteCollectionHard "meat" 0 (Some 7)
                  (or_introl eq_refl))).
Defined.

(** ** [SystemEventFlush] *)

Section Flush.
Import SystemEventFlush.
Context `{SystemEventValues}.
Hypothesis distinct : enumerators_distinct.

(** What [saveCollectionsManifestItem] leaves in the object. *)
Lemma saveCollectionsManifestItem_spec f item :
  getCollectionsManifestItem (saveCollectionsManifestItem f item) =
  match getCollectionsManifestItem f with
  | None => Some item
  | Some cur =>
      if getBySeqno item >? getBySeqno cur then Some item else Some cur
  end.
Proof.
  unfold saveCollectionsManifestItem, getCollectionsManifestItem.
  destruct f as [[cur|]]; simpl; [|reflexivity].
  rewrite orb_false_r. destruct (getBySeqno item >? getBySeqno cur); reflexivity.
Qed.

Lemma saveCollectionsManifestItem_not_higher f cur item :
  getCollectionsManifestItem f = Some cur ->
  getBySeqno item <= getBySeqno cur ->
  saveCollectionsManifestItem f item = f.
Proof.
  unfold saveCollectionsManifestItem, getCollectionsManifestItem.
  intros Hf Hle. rewrite Hf. simpl. rewrite orb_false_r.
  destruct (Z.gtb_spec (getBySeqno item) (getBySeqno cur)); [lia|reflexivity].
Qed.

(** [process] on a system event with a known code: it never throws, saves
    through [saveCollectionsManifestItem], and skips only the begin of a
    deletion. *)
Lemma process_system_event f item e :
  getOperation item = queue_op.system_event ->
  SystemEvent_of_flags (getFlags item) = Some e ->
  process f item =
  Ok (match e with BeginDeleteCollection => Skip | _ => Continue end,
      saveCollectionsManifestItem f item).
Proof.
  intros Hop He. unfold process. rewrite Hop, He. simpl.
  destruct e; reflexivity.
Qed.

Lemma process_other f item :
  getOperation item <> queue_op.system_event ->
  process f item = Ok (Continue, f).
Proof.
  intros Hop. unfold process.
  destruct (queue_op_eqb_spec (getOperation item) queue_op.system_event);
    [contradiction|reflexivity].
Qed.

(** C2.  [SystemEventFlush::process] returns [Continue] and leaves the
    object as it was when the item's operation is not [system_event].  On a
    system event it passes the item to [saveCollectionsManifestItem] (which
    makes it the saved manifest item when none is saved yet or when its
    [bySeqno] is higher than the saved one's) and returns [Continue] for
    [CreateCollection], [DeleteCollectionHard], [DeleteCollectionSoft] and
    [CollectionsSeparatorChanged], and [Skip] for [BeginDeleteCollection]. *)
Theorem process_disposition (f : t) (item : Item) :
  (getOperation item <> queue_op.system_event ->
   process f item = Ok (Continue, f)) /\
  (getOperation item = queue_op.system_event ->
   forall e, getFlags item = enumerator e ->
     process f item =
       Ok (match e with BeginDeleteCollection => Skip | _ => Continue end,
           saveCollectionsManifestItem f item) /\
     getCollectionsManifestItem (saveCollectionsManifestItem f item) =
       match getCollectionsManifestItem f with
       | None => Some item
       | Some cur =>
           if getBySeqno item >? getBySeqno cur then Some item else Some cur
       end).
Proof.
  split.
  - apply process_other.
  - intros Hop e He. split.
    + apply process_system_event; [exact Hop|].
      rewrite He. now apply SystemEvent_of_flags_enumerator.
    + apply saveCollectionsManifestItem_spec.
Qed.

(** The outcome of a batch from any starting object: the batch is processed
    without an exception and the saved item has the highest [bySeqno] of
    the item saved before and the system events of the batch. *)
Lemma process_all_keeps_highest (items : list Item) :
  Forall (fun it => is_system_event it = true -> has_known_event it = true)
         items ->
  forall f0, exists f,
    process_all f0 items = Ok f /\
    match getCollectionsManifestItem f with
    | None =>
        getCollectionsManifestItem f0 = None /\ system_events items = []
    | Some it =>
        (getCollectionsManifestItem f0 = Some it \/
         In it (system_events items)) /\
        (forall c, getCollectionsManifestItem f0 = Some c ->
                   getBySeqno c <= getBySeqno it) /\
        (forall it', In it' (system_events items) ->
                     getBySeqno it' <= getBySeqno it)
    end.
Proof.
  induction 1 as [|item items Hitem _ IH]; intros f0.
  - exists f0. split; [reflexivity|].
    destruct (getCollectionsManifestItem f0) as [it|] eqn:Hf0.
    + repeat split.
      * now left.
      * intros c Hc. inversion Hc. lia.
      * intros it' [].
    + split; reflexivity.
  - simpl. unfold system_events. simpl.
    destruct (is_system_event item) eqn:Hse.
    + specialize (Hitem eq_refl). unfold has_known_event in Hitem.
      destruct (SystemEvent_of_flags (getFlags item)) as [e|] eqn:He;
        [|discriminate].
      apply is_system_event_true in Hse.
      rewrite (process_system_event f0 item e Hse He). simpl.
      destruct (IH (saveCollectionsManifestItem f0 item)) as (f & Hrun & Hf).
      exists f. split; [exact Hrun|].
      rewrite saveCollectionsManifestItem_spec in Hf.
      fold (system_events items) in *.
      destruct (getCollectionsManifestItem f) as [it|].
      * destruct Hf as (Hin & Hge & Hmax).
        destruct (getCollectionsManifestItem f0) as [cur|] eqn:Hf0.
        -- destruct (Z.gtb_spec (getBySeqno item) (getBySeqno cur)) as [Hgt|Hle].
           ++ pose proof (Hge item eq_refl) as Hi.
              repeat split.
              ** destruct Hin as [Hin|Hin];
                   [inversion Hin; subst; right; now left
                   |right; now right].
              ** intros c Hc. inversion Hc; subst. lia.
              ** intros it' [Heq|Hin']; [subst; lia|now apply Hmax].
           ++ pose proof (Hge cur eq_refl) as Hc.
              repeat split.
              ** destruct Hin as [Hin|Hin];
                   [left; exact Hin|right; now right].
              ** intros c Hc'. inversion Hc'; subst. lia.
              ** intros it' [Heq|Hin']; [subst; lia|now apply Hmax].
        -- pose proof (Hge item eq_refl) as Hi.
           repeat split.
           ++ destruct Hin as [Hin|Hin];
                [inversion Hin; subst; right; now left|right; now right].
           ++ intros c Hc. discriminate.
           ++ intros it' [Heq|Hin']; [subst; lia|now apply Hmax].
      * destruct Hf as (Hnone & _).
        destruct (getCollectionsManifestItem f0) as [cur|];
          [destruct (getBySeqno item >? getBySeqno cur)|]; discriminate.
    + assert (Hop : getOperation item <> queue_op.system_event).
      { intros Hop. apply is_system_event_true in Hop. congruence. }
      rewrite (process_other f0 item Hop). simpl.
      apply (IH f0).
Qed.

(** C3.  For every sequence of system-event items fed to [process] in one
    batch (a fresh [SystemEventFlush] object), every item is processed and
    the item retained ([getCollectionsManifestItem], the one handed to
    [commit]) is one of them whose [bySeqno] is the maximum of the batch;
    and whatever is saved, processing a system event with a lower [bySeqno]
    than the saved item leaves the saved item in place. *)
Theorem batch_retains_highest_seqno (items : list Item) :
  Forall (fun it => is_system_event it = true /\ has_known_event it = true)
         items ->
  (items <> [] ->
   exists f it,
     process_all empty items = Ok f /\
     getCollectionsManifestItem f = Some it /\
     highest_of it items) /\
  (forall f cur item,
     getCollectionsManifestItem f = Some cur ->
     is_system_event item = true -> has_known_event item = true ->
     getBySeqno item < getBySeqno cur ->
     exists status, process f item = Ok (status, f)).
Proof.
  intros Hall. split.
  - intros Hne.
    assert (Hsys : system_events items = items).
    { unfold system_events. apply forallb_filter_id.
      apply forallb_forall. intros x Hx.
      rewrite Forall_forall in Hall. now apply Hall. }
    assert (Hknown : Forall (fun it => is_system_event it = true ->
                                       has_known_event it = true) items).
    { eapply Forall_impl; [|exact Hall]. simpl. tauto. }
    destruct (process_all_keeps_highest items Hknown empty) as (f & Hrun & Hf).
    rewrite Hsys in Hf.
    destruct (getCollectionsManifestItem f) as [it|] eqn:Hg.
    + exists f, it. destruct Hf as ([Hin|Hin] & _ & Hmax);
        [discriminate|].
      repeat split; auto.
    + destruct Hf as (_ & Hnil). contradiction.
  - intros f cur item Hcur Hse Hk Hlt.
    unfold has_known_event in Hk.
    destruct (SystemEvent_of_flags (getFlags item)) as [e|] eqn:He;
      [|discriminate].
    apply is_system_event_true in Hse.
    rewrite (process_system_event f item e Hse He).
    rewrite (saveCollectionsManifestItem_not_higher f cur item Hcur);
      [eauto|lia].
Qed.

(** C10.  [SystemEventFlush::isUpsert] throws [std::invalid_argument] on a
    system event whose code is [BeginDeleteCollection], returns [true] for
    [CreateCollection] and [CollectionsSeparatorChanged], [false] for
    [DeleteCollectionHard] and [DeleteCollectionSoft], and for an item that
    is not a system event the negation of its deleted flag. *)
Theorem isUpsert_cases (item : Item) :
  (getOperation item = queue_op.system_event ->
   forall e, getFlags item = enumerator e ->
     isUpsert item =
       match e with
       | BeginDeleteCollection => Throw invalid_argument
       | CreateCollection | CollectionsSeparatorChanged => Ok true
       | DeleteCollectionHard | DeleteCollectionSoft => Ok false
       end) /\
  (getOperation item <> queue_op.system_event ->
   isUpsert item = Ok (negb (isDeleted item))).
Proof.
  unfold isUpsert. split.
  - intros Hop e He. rewrite Hop, He. simpl.
    rewrite (SystemEvent_of_flags_enumerator distinct).
    destruct e; reflexivity.
  - intros Hop.
    destruct (queue_op_eqb_spec (getOperation item) queue_op.system_event);
      [contradiction|reflexivity].
Qed.
End Flush.

(** C2 at a begin-delete event arriving at a fresh object: the item is
    saved and its marker document is skipped. *)
Lemma process_disposition_witness :
  let item := sample_event BeginDeleteCollection "$collections::delete:meat" 7 in
  @SystemEventFlush.process declared_values SystemEventFlush.empty item
  = Ok (Skip, SystemEventFlush.mk (Some item)).
Proof.
  intros item.
  exact (proj1 (proj2 (@process_disposition declared_values
                         declared_values_distinct
                         SystemEventFlush.empty item)
                      eq_refl BeginDeleteCollection eq_refl)).
Defined.

(** C3 at a batch of three events queued with seqnos 5, 9 and 7: the one
    with seqno 9 is retained. *)
Lemma batch_retains_highest_seqno_witness :
  let items := [sample_event CreateCollection "$collections::create:meat" 5;
                sample_event CollectionsSeparatorChanged "$collections::separator" 9;
                sample_event BeginDeleteCollection "$collections::delete:meat" 7] in
  exists f it,
    @SystemEventFlush.process_all declared_values SystemEventFlush.empty items
      = Ok f /\
    SystemEventFlush.getCollectionsManifestItem f = Some it /\
    highest_of it items.
Proof.
  intros items.
  apply (proj1 (@batch_retains_highest_seqno declared_values items
                  ltac:(repeat constructor))).
  discriminate.
Defined.

(** C10 at a begin-delete event: [isUpsert] throws. *)
Lemma isUpsert_cases_witness :
  @SystemEventFlush.isUpsert declared_values
     (sample_event BeginDeleteCollection "$collections::delete:meat" 7)
  = Throw invalid_argument.
Proof.
  exact (proj1 (@isUpsert_cases declared_values declared_values_distinct
                  (sample_event BeginDeleteCollection
                                "$collections::delete:meat" 7))
               eq_refl BeginDeleteCollection eq_refl).
Defined.

(** ** [SystemEventReplicate] *)

Section Replicate.
Import SystemEventReplicate.
Variable shouldReplicate : Item -> bool.
Context `{SystemEventValues}.
Hypothesis distinct : enumerators_distinct.

(** C9.  For every item whose [shouldReplicate()] is true,
    [SystemEventReplicate::process] returns [Continue] if the item is not a
    system event, or is a system event with code [CreateCollection],
    [BeginDeleteCollection] or [CollectionsSeparatorChanged]; it returns
    [Skip] for system events with code [DeleteCollectionHard] or
    [DeleteCollectionSoft]. *)
Theorem replicate_process_cases (item : Item) :
  shouldReplicate item = true ->
  (getOperation item <> queue_op.system_event ->
   process shouldReplicate item = Continue) /\
  (getOperation item = queue_op.system_event ->
   forall e, getFlags item = enumerator e ->
     process shouldReplicate item =
       match e with
       | CreateCollection | BeginDeleteCollection
       | CollectionsSeparatorChanged => Continue
       | DeleteCollectionHard | DeleteCollectionSoft => Skip
       end).
Proof.
  intros Hrep. unfold process. rewrite Hrep. split.
  - intros Hop.
    destruct (queue_op_eqb_spec (getOperation item) queue_op.system_event);
      [contradiction|reflexivity].
  - intros Hop e He. rewrite Hop, He. simpl.
    rewrite (SystemEvent_of_flags_enumerator distinct).
    destruct e; reflexivity.
Qed.

(** An item that should not replicate is skipped whatever it is. *)
Lemma replicate_process_not_replicated (item : Item) :
  shouldReplicate item = false -> process shouldReplicate item = Skip.
Proof. intros Hrep. unfold process. now rewrite Hrep. Qed.
End Replicate.

(** C9 at a soft-delete event of an item that should replicate. *)
Lemma replicate_process_cases_witness :
  @SystemEventReplicate.process (fun _ => true) declared_values
     (sample_event DeleteCollectionSoft "$collections::separator" 11)
  = Skip.
Proof.
  exact (proj2 (@replicate_process_cases (fun _ => true) declared_values
                  declared_values_distinct
                  (sample_event DeleteCollectionSoft
                                "$collections::separator" 11)
                  eq_refl)
               eq_refl DeleteCollectionSoft eq_refl).
Defined.

(** ** [CouchKVStore]: transactions *)

Section Transactions.
Import CouchKVStore.

Lemma begin_read_only s :
  isReadOnly s = true -> begin s = Throw logic_error.
Proof. intros Hro. unfold begin. now rewrite Hro. Qed.

Lemma begin_read_write s :
  isReadOnly s = false -> begin s = Ok (true, set_intransaction s true).
Proof. intros Hrw. unfold begin. now rewrite Hrw. Qed.

(** C4 (amended).  [CouchKVStore::begin] throws [std::logic_error] on a
    read-only instance; on a read/write instance it returns [true] and
    leaves the store in-transaction, whether or not a transaction was
    already open. *)
Theorem begin_cases (s : t) :
  (isReadOnly s = true -> begin s = Throw logic_error) /\
  (isReadOnly s = false ->
   exists s', begin s = Ok (true, s') /\
              intransaction s' = true /\
              pendingReqsQ s' = pendingReqsQ s /\
              isReadOnly s' = false).
Proof.
  split.
  - apply begin_read_only.
  - intros Hrw. exists (set_intransaction s true).
    rewrite (begin_read_write s Hrw). auto.
Qed.

(** C5 (amended).  After [rollback()] on a read/write store that is in a
    transaction, the store is no longer in-transaction; the queue of
    pending write requests is the one it was before the call. *)
Theorem rollback_in_transaction (s : t) :
  isReadOnly s = false ->
  intransaction s = true ->
  exists s', rollback s = Ok s' /\
             intransaction s' = false /\
             pendingReqsQ s' = pendingReqsQ s.
Proof.
  intros Hrw Hin. exists (set_intransaction s false).
  unfold rollback. rewrite Hrw, Hin. auto.
Qed.

(** [rollback()] on a read-only store throws, and outside a transaction it
    changes nothing. *)
Lemma rollback_other_cases (s : t) :
  (isReadOnly s = true -> rollback s = Throw logic_error) /\
  (isReadOnly s = false -> intransaction s = false -> rollback s = Ok s).
Proof.
  unfold rollback. split.
  - intros Hro. now rewrite Hro.
  - intros Hrw Hout. now rewrite Hrw, Hout.
Qed.

(** A request is queued only inside a transaction of a read/write store. *)
Lemma setAndReturnRequest_queues (s : t) (itm : Item) (rev : Z) :
  isReadOnly s = false ->
  intransaction s = true ->
  nth_error (dbFileRevMap s) (getVBucketId itm) = Some rev ->
  setAndReturnRequest s itm =
    Some (Ok (mkRequest itm rev false false,
              push_back s (mkRequest itm rev false false))).
Proof.
  intros Hrw Hin Hrev. unfold setAndReturnRequest.
  now rewrite Hrw, Hin, Hrev.
Qed.
End Transactions.

(** C4, counterexample: on a read/write store a second [begin], with the
    transaction of the first still open, does not fail: it returns [true]
    again. *)
Lemma begin_twice_succeeds :
  exists s1,
    CouchKVStore.begin sample_rw_store = Ok (true, s1) /\
    CouchKVStore.intransaction s1 = true /\
    CouchKVStore.begin s1 = Ok (true, s1) /\
    ~ (exists e, CouchKVStore.begin s1 = Throw e).
Proof.
  exists (CouchKVStore.mk false true [] [1]).
  repeat split; intros [e He]; discriminate.
Qed.

(** C4 (amended) at the read-only sibling and at the read/write store. *)
Lemma begin_cases_witness :
  CouchKVStore.begin sample_ro_store = Throw logic_error /\
  exists s', CouchKVStore.begin sample_rw_store = Ok (true, s') /\
             CouchKVStore.intransaction s' = true /\
             CouchKVStore.pendingReqsQ s'
               = CouchKVStore.pendingReqsQ sample_rw_store /\
             CouchKVStore.isReadOnly s' = false.
Proof.
  split.
  - exact (proj1 (begin_cases sample_ro_store) eq_refl).
  - exact (proj2 (begin_cases sample_rw_store) eq_refl).
Defined.

(** C5, counterexample: [begin], one queued [set], then [rollback()]: the
    transaction is closed but the request is still in the queue. *)
Lemma rollback_keeps_pending_requests :
  exists s1 req s2 s3,
    CouchKVStore.begin sample_rw_store = Ok (true, s1) /\
    CouchKVStore.setAndReturnRequest s1 (sample_set "key" 1)
      = Some (Ok (req, s2)) /\
    CouchKVStore.rollback s2 = Ok s3 /\
    CouchKVStore.intransaction s3 = false /\
    CouchKVStore.pendingReqsQ s3 = [req] /\
    CouchKVStore.pendingReqsQ s3 <> [].
Proof.
  do 4 eexists. repeat split; try reflexivity. simpl. discriminate.
Qed.

(** C5 (amended) at a store with an open transaction and one request. *)
Lemma rollback_in_transaction_witness :
  let req := CouchKVStore.mkRequest (sample_set "key" 1) 1 false false in
  exists s',
    CouchKVStore.rollback (CouchKVStore.mk false true [req] [1]) = Ok s' /\
    CouchKVStore.intransaction s' = false /\
    CouchKVStore.pendingReqsQ s' = [req].
Proof.
  intros req.
  exact (rollback_in_transaction (CouchKVStore.mk false true [req] [1])
           eq_refl eq_refl).
Defined.

(** ** Byte order *)

Lemma be_bytes_length n x : List.length (be_bytes n x) = n.
Proof. induction n as [|n IH]; simpl; [reflexivity|now rewrite IH]. Qed.

Lemma host_bytes_length h n x : List.length (host_bytes h n x) = n.
Proof.
  destruct h; simpl; unfold le_bytes;
    rewrite ?length_rev; apply be_bytes_length.
Qed.

(** ** The metadata codec *)

Section MetaDataCodec.
Import MetaData.
Variable host : endianness.
Variable FLEX_META_CODE : Byte.byte.

Lemma classify_cases size :
  classify size =
    if Nat.eqb size 16 then Some V0
    else if Nat.eqb size 18 then Some V1
    else if Nat.eqb size 19 then Some V2
    else None.
Proof. reflexivity. Qed.

Lemma createMetaData_other_size buf :
  List.length buf <> 16%nat -> List.length buf <> 18%nat ->
  List.length buf <> 19%nat ->
  createMetaData host FLEX_META_CODE buf = Throw logic_error.
Proof.
  intros H16 H18 H19. unfold MetaData.createMetaData.
  rewrite classify_cases.
  destruct (Nat.eqb_spec (List.length buf) 16); [contradiction|].
  destruct (Nat.eqb_spec (List.length buf) 18); [contradiction|].
  destruct (Nat.eqb_spec (List.length buf) 19); [contradiction|].
  reflexivity.
Qed.

Lemma copyToBuf_length m : List.length (copyToBuf host m) = 18%nat.
Proof.
  unfold copyToBuf. rewrite !length_app, !host_bytes_length. reflexivity.
Qed.

(** C7.  [MetaDataFactory::createMetaData] classifies a buffer by its
    size: a 16-byte buffer is accepted and read as V0, an 18-byte buffer is
    accepted as V1, a 19-byte buffer is read as V1 exactly as its first 18
    bytes are (the trailing byte is dropped); a buffer of size 15 or of size
    greater than 19 makes the call throw; and what is written is always the
    18-byte V1 layout. *)
Theorem createMetaData_size_classes :
  (forall buf, List.length buf = 16%nat ->
     exists m, createMetaData host FLEX_META_CODE buf = Ok m /\
               getVersionInitialisedFrom m = V0) /\
  (forall buf, List.length buf = 18%nat ->
     exists m, createMetaData host FLEX_META_CODE buf = Ok m /\
               getVersionInitialisedFrom m = V1) /\
  (forall buf, List.length buf = 19%nat ->
     exists m, createMetaData host FLEX_META_CODE buf = Ok m /\
               getVersionInitialisedFrom m = V1 /\
               createMetaData host FLEX_META_CODE (firstn 18 buf) = Ok m) /\
  (forall buf, List.length buf = 15%nat \/ (List.length buf > 19)%nat ->
     createMetaData host FLEX_META_CODE buf = Throw logic_error) /\
  (forall m, List.length (copyToBuf host m) = getMetaDataSize V1 /\
     exists m', createMetaData host FLEX_META_CODE (copyToBuf host m) = Ok m' /\
                getVersionInitialisedFrom m' = V1).
Proof.
  repeat split.
  - intros buf Hlen. unfold MetaData.createMetaData. rewrite Hlen. simpl.
    eexists. split; reflexivity.
  - intros buf Hlen. unfold MetaData.createMetaData. rewrite Hlen. simpl.
    eexists. split; reflexivity.
  - intros buf Hlen.
    do 20 (destruct buf as [|? buf]; try discriminate Hlen).
    eexists. repeat split.
  - intros buf Hlen. apply createMetaData_other_size; lia.
  - apply copyToBuf_length.
  - unfold MetaData.createMetaData. rewrite copyToBuf_length. simpl.
    eexists. split; reflexivity.
Qed.
End MetaDataCodec.

(** C7 at buffers of zeroes of 16, 19 and 15 bytes, as in the test
    [CouchKVStoreMetaData.overlay]. *)
Lemma createMetaData_size_classes_witness :
  (exists m, MetaData.createMetaData LittleEndian Byte.x01
               (repeat Byte.x00 16) = Ok m /\
             MetaData.getVersionInitialisedFrom m = MetaData.V0) /\
  (exists m, MetaData.createMetaData LittleEndian Byte.x01
               (repeat Byte.x00 19) = Ok m /\
             MetaData.getVersionInitialisedFrom m = MetaData.V1 /\
             MetaData.createMetaData LittleEndian Byte.x01
               (firstn 18 (repeat Byte.x00 19)) = Ok m) /\
  MetaData.createMetaData LittleEndian Byte.x01 (repeat Byte.x00 15)
    = Throw logic_error.
Proof.
  pose proof (createMetaData_size_classes LittleEndian Byte.x01)
    as (H16 & _ & H19 & Hbad & _).
  split; [|split].
  - exact (H16 (repeat Byte.x00 16) eq_refl).
  - exact (H19 (repeat Byte.x00 19) eq_refl).
  - exact (Hbad (repeat Byte.x00 15) (or_introl eq_refl)).
Defined.

(** ** Byte order: loads and stores *)

Lemma Z_of_byte_range b : 0 <= Z_of_byte b < 256.
Proof.
  unfold Z_of_byte. pose proof (Byte.to_N_bounded b). lia.
Qed.

Lemma Z_of_byte_of_Z z : Z_of_byte (byte_of_Z z) = z mod 256.
Proof.
  unfold Z_of_byte, byte_of_Z.
  pose proof (Z.mod_pos_bound z 256 ltac:(lia)) as Hz.
  destruct (Byte.of_N (Z.to_N (z mod 256))) as [b|] eqn:Hb.
  - apply Byte.to_of_N in Hb. rewrite Hb. lia.
  - apply Byte.of_N_None_iff in Hb. lia.
Qed.

Lemma byte_of_Z_of_byte b : byte_of_Z (Z_of_byte b) = b.
Proof.
  unfold byte_of_Z. rewrite Z.mod_small by apply Z_of_byte_range.
  unfold Z_of_byte. rewrite N2Z.id, Byte.of_to_N. reflexivity.
Qed.

Lemma be_load_fold bs acc :
  fold_left (fun a b => a * 256 + Z_of_byte b) bs acc
  = acc * 256 ^ Z.of_nat (List.length bs) + be_load bs.
Proof.
  unfold be_load. revert acc.
  induction bs as [|b bs IH]; intros acc.
  - simpl. lia.
  - cbn [fold_left List.length]. rewrite IH, (IH (0 * 256 + Z_of_byte b)).
    rewrite Nat2Z.inj_succ, Z.pow_succ_r by lia. ring.
Qed.

Lemma be_load_cons b bs :
  be_load (b :: bs) = Z_of_byte b * 256 ^ Z.of_nat (List.length bs) + be_load bs.
Proof.
  unfold be_load at 1. cbn [fold_left]. rewrite be_load_fold. ring.
Qed.

Lemma be_load_range bs : 0 <= be_load bs < 256 ^ Z.of_nat (List.length bs).
Proof.
  induction bs as [|b bs IH].
  - cbv. split; congruence.
  - rewrite be_load_cons. cbn [List.length].
    rewrite Nat2Z.inj_succ, Z.pow_succ_r by lia.
    pose proof (Z_of_byte_range b). nia.
Qed.

Lemma be_load_be_bytes n x : be_load (be_bytes n x) = x mod 256 ^ Z.of_nat n.
Proof.
  induction n as [|n IH].
  - simpl. now rewrite Z.mod_1_r.
  - cbn [be_bytes]. rewrite be_load_cons, be_bytes_length, IH, Z_of_byte_of_Z.
    rewrite Nat2Z.inj_succ, Z.pow_succ_r by lia.
    rewrite (Z.mul_comm 256), Z.rem_mul_r by lia. ring.
Qed.

Lemma be_bytes_add_multiple n : forall m x k,
  (n <= m)%nat ->
  be_bytes n (k * 256 ^ Z.of_nat m + x) = be_bytes n x.
Proof.
  induction n as [|n IH]; intros m x k Hle; [reflexivity|].
  cbn [be_bytes]. rewrite (IH m x k) by lia. f_equal.
  unfold byte_of_Z. do 2 f_equal.
  remember (Z.of_nat m - Z.of_nat n - 1) as a eqn:Ha.
  assert (Hm : Z.of_nat m = a + 1 + Z.of_nat n) by lia.
  rewrite Hm, !Z.pow_add_r, Z.pow_1_r by lia.
  rewrite !Z.mul_assoc, Z.div_add_l by lia.
  rewrite Z.add_comm, Z.mod_add by lia. reflexivity.
Qed.

Lemma be_bytes_be_load bs :
  be_bytes (List.length bs) (be_load bs) = bs.
Proof.
  induction bs as [|b bs IH]; [reflexivity|].
  cbn [List.length be_bytes]. rewrite be_load_cons.
  pose proof (be_load_range bs) as Hr.
  rewrite (be_bytes_add_multiple _ _ _ _ (le_n _)), IH. f_equal.
  rewrite Z.div_add_l by lia. rewrite Z.div_small by lia.
  rewrite Z.add_0_r. apply byte_of_Z_of_byte.
Qed.

Lemma byteswap_involutive n x :
  0 <= x < 256 ^ Z.of_nat n -> byteswap n (byteswap n x) = x.
Proof.
  intros Hx. unfold byteswap at 1. unfold le_bytes.
  assert (Hlen : List.length (le_bytes n x) = n).
  { unfold le_bytes. now rewrite length_rev, be_bytes_length. }
  unfold byteswap. rewrite <- Hlen at 1.
  rewrite be_bytes_be_load. unfold le_bytes. rewrite rev_involutive.
  rewrite be_load_be_bytes. now apply Z.mod_small.
Qed.

Lemma byteswap_range n x : 0 <= byteswap n x < 256 ^ Z.of_nat n.
Proof.
  unfold byteswap.
  pose proof (be_load_range (le_bytes n x)) as Hr.
  unfold le_bytes in *. now rewrite length_rev, be_bytes_length in Hr.
Qed.

Lemma host_load_host_bytes h n x :
  0 <= x < 256 ^ Z.of_nat n -> host_load h (host_bytes h n x) = x.
Proof.
  intros Hx. destruct h; simpl; unfold le_bytes;
    rewrite ?rev_involutive, be_load_be_bytes; now apply Z.mod_small.
Qed.

Lemma be_load_host_bytes h n x :
  0 <= x < 256 ^ Z.of_nat n ->
  be_load (host_bytes h n x) =
    match h with LittleEndian => byteswap n x | BigEndian => x end.
Proof.
  intros Hx. destruct h; simpl; [reflexivity|].
  rewrite be_load_be_bytes. now apply Z.mod_small.
Qed.

Lemma firstn_exact {A : Type} (a r : list A) n :
  List.length a = n -> firstn n (a ++ r) = a.
Proof.
  intros <-. rewrite firstn_app, firstn_all, Nat.sub_diag. simpl.
  apply app_nil_r.
Qed.

Lemma skipn_exact {A : Type} (a r : list A) n :
  List.length a = n -> skipn n (a ++ r) = r.
Proof.
  intros <-. rewrite skipn_app, skipn_all, Nat.sub_diag. reflexivity.
Qed.

(** The bytes of a swapped value are the bytes of the value in reverse
    order. *)
Lemma byteswap_reverses n x :
  be_bytes n (byteswap n x) = rev (be_bytes n x).
Proof.
  unfold byteswap, le_bytes.
  assert (Hlen : List.length (rev (be_bytes n x)) = n)
    by now rewrite length_rev, be_bytes_length.
  rewrite <- Hlen at 1. apply be_bytes_be_load.
Qed.

Lemma replace_nth_last {A : Type} (l : list A) (x y : A) :
  Couchstore.replace_nth (List.length l) y (l ++ [x]) = Some (l ++ [y]).
Proof.
  induction l as [|z l IH]; simpl; [reflexivity|]. now rewrite IH.
Qed.

Lemma combine_snoc {A B : Type} (l : list A) (m : list B) (x : A) (y : B) :
  List.length l = List.length m ->
  combine (l ++ [x]) (m ++ [y]) = combine l m ++ [(x, y)].
Proof.
  revert m. induction l as [|a l IH]; intros [|b m] Hlen;
    try discriminate; simpl; [reflexivity|].
  f_equal. apply IH. now inversion Hlen.
Qed.

(** The document of the request queued last is the newest in the file. *)
Lemma write_docs_snoc reqs metas req bytes d :
  List.length reqs = List.length metas ->
  Couchstore.write_docs (reqs ++ [req]) (metas ++ [bytes]) d =
  (getVBucketId (CouchKVStore.request_item req),
   getKey (CouchKVStore.request_item req),
   Couchstore.mkStoredDoc bytes (CouchKVStore.deleteItem req))
  :: Couchstore.write_docs reqs metas d.
Proof.
  intros Hlen. unfold Couchstore.write_docs.
  rewrite combine_snoc by exact Hlen.
  rewrite fold_left_app. reflexivity.
Qed.

(** ** Reading back a raw V0 record *)

Section RawV0.
Import Couchstore.
Variable host : endianness.
Variable flex : Byte.byte.
Variable initial_rev_meta : Item -> list Byte.byte.

(** The 16 bytes [writeMetaData(meta, sizeofV0)] leaves in [rev_meta]: the
    three V0 fields as they lie in the host's memory. *)
Lemma writeMetaData_V0 (meta : MockCouchRequest.MetaData) :
  MockCouchRequest.writeMetaData host meta MockCouchRequest.sizeofV0 =
  Some (host_bytes host 8 (MockCouchRequest.cas meta)
        ++ host_bytes host 4 (MockCouchRequest.expiry meta)
        ++ host_bytes host 4 (MockCouchRequest.flags meta)).
Proof.
  unfold MockCouchRequest.writeMetaData, MockCouchRequest.object_bytes.
  simpl Nat.leb. cbv iota. f_equal.
  rewrite !app_assoc.
  rewrite firstn_exact; [reflexivity|].
  rewrite !length_app, !host_bytes_length. reflexivity.
Qed.

(** The three fields of a 16-byte buffer. *)
Lemma slices_V0 (a b c : list Byte.byte) :
  List.length a = 8%nat -> List.length b = 4%nat -> List.length c = 4%nat ->
  MetaData.slice 0 8 (a ++ b ++ c) = a /\
  MetaData.slice 8 4 (a ++ b ++ c) = b /\
  MetaData.slice 12 4 (a ++ b ++ c) = c.
Proof.
  intros Ha Hb Hc. unfold MetaData.slice. repeat split.
  - rewrite skipn_O. now apply firstn_exact.
  - rewrite (skipn_exact a _ 8 Ha). now apply firstn_exact.
  - rewrite app_assoc, (skipn_exact (a ++ b) c 12).
    + apply firstn_all2. lia.
    + rewrite length_app, Ha, Hb. reflexivity.
Qed.

(** Decoding those 16 bytes. *)
Lemma get_metadata_V0 (c e f : Z) :
  0 <= c < 2 ^ 64 -> 0 <= e < 2 ^ 32 -> 0 <= f < 2 ^ 32 ->
  get_metadata host flex
    (host_bytes host 8 c ++ host_bytes host 4 e ++ host_bytes host 4 f) =
  (ENGINE_SUCCESS,
   Some (mkGetValue (htonll host c) (htonl host e) f
                    MetaData.PROTOCOL_BINARY_RAW_BYTES)).
Proof.
  intros Hc He Hf.
  destruct (slices_V0 (host_bytes host 8 c) (host_bytes host 4 e)
                      (host_bytes host 4 f)
                      (host_bytes_length _ _ _) (host_bytes_length _ _ _)
                      (host_bytes_length _ _ _)) as (S1 & S2 & S3).
  unfold get_metadata, MetaData.createMetaData.
  rewrite S1, S2, S3.
  rewrite !length_app, !host_bytes_length.
  change (MetaData.classify (8 + (4 + 4))) with (Some MetaData.V0).
  cbv iota.
  unfold MetaData.getCas, MetaData.getExptime, MetaData.getFlags,
    MetaData.getDataType.
  cbn [MetaData.raw_cas MetaData.raw_exptime MetaData.raw_flags
       MetaData.dataType].
  rewrite !host_load_host_bytes by assumption.
  reflexivity.
Qed.

(** C8.  An item persisted with a raw 16-byte V0 metadata record, as the
    test [fuzzV0] does it ([begin], [setAndReturnRequest],
    [writeMetaData(meta, sizeofV0)] on the request returned, [commit]), is
    read back by a subsequent [get] with success, whatever CAS, expiry and
    flags the record holds and whatever else is pending or already in the
    file: the item has CAS [htonll(cas)], expiry [htonl(expiry)], the flags
    unchanged and datatype raw.  The 16 bytes are in the file as written;
    CAS and expiry returned are those bytes read most significant byte
    first (big-endian on disk), which on a little-endian host is the
    written value with its bytes in reverse order.  For the record of the
    test (CAS [0xF00FCAFE11225566], expiry [0xAA00BB11], flags
    [0x01020304]) see the instance below. *)
Theorem fuzzV0_read_back (st : t) (item : Item)
    (meta : MockCouchRequest.MetaData) :
  CouchKVStore.isReadOnly (kvstore st) = false ->
  List.length (rev_metas st)
    = List.length (CouchKVStore.pendingReqsQ (kvstore st)) ->
  (getVBucketId item < List.length (CouchKVStore.dbFileRevMap (kvstore st)))%nat ->
  0 <= MockCouchRequest.cas meta < 2 ^ 64 ->
  0 <= MockCouchRequest.expiry meta < 2 ^ 32 ->
  0 <= MockCouchRequest.flags meta < 2 ^ 32 ->
  exists s1 req s2 s3 s4 rev_meta,
    begin st = Ok (true, s1) /\
    setAndReturnRequest initial_rev_meta s1 item = Some (Ok (req, s2)) /\
    writeMetaData host s2
      (List.length (CouchKVStore.pendingReqsQ (kvstore st)))
      meta MockCouchRequest.sizeofV0 = Some s3 /\
    commit s3 = Ok (true, s4) /\
    lookup (disk s4) (getVBucketId item) (getKey item)
      = Some (mkStoredDoc rev_meta false) /\
    List.length rev_meta = 16%nat /\
    get host flex s4 (getKey item) (getVBucketId item) false =
      (ENGINE_SUCCESS,
       Some (mkGetValue (htonll host (MockCouchRequest.cas meta))
                        (htonl host (MockCouchRequest.expiry meta))
                        (MockCouchRequest.flags meta)
                        MetaData.PROTOCOL_BINARY_RAW_BYTES)) /\
    htonll host (MockCouchRequest.cas meta)
      = be_load (MetaData.slice 0 8 rev_meta) /\
    htonl host (MockCouchRequest.expiry meta)
      = be_load (MetaData.slice 8 4 rev_meta) /\
    (host = LittleEndian ->
     be_bytes 8 (htonll host (MockCouchRequest.cas meta))
       = rev (be_bytes 8 (MockCouchRequest.cas meta)) /\
     be_bytes 4 (htonl host (MockCouchRequest.expiry meta))
       = rev (be_bytes 4 (MockCouchRequest.expiry meta))).
Proof.
  intros Hrw Hm Hvb Hc He Hf.
  destruct st as [[ro intx q revs] metas d].
  simpl in Hrw, Hm, Hvb. subst ro.
  apply nth_error_Some in Hvb.
  destruct (nth_error revs (getVBucketId item)) as [rev|] eqn:Hrev;
    [|contradiction].
  set (bytes := host_bytes host 8 (MockCouchRequest.cas meta)
                ++ host_bytes host 4 (MockCouchRequest.expiry meta)
                ++ host_bytes host 4 (MockCouchRequest.flags meta)).
  set (req := CouchKVStore.mkRequest item rev false false).
  set (d' := (getVBucketId item, getKey item, mkStoredDoc bytes false)
             :: write_docs q metas d).
  exists (mk (CouchKVStore.mk false true q revs) metas d).
  exists req.
  exists (mk (CouchKVStore.mk false true (q ++ [req]) revs)
             (metas ++ [initial_rev_meta item]) d).
  exists (mk (CouchKVStore.mk false true (q ++ [req]) revs)
             (metas ++ [bytes]) d).
  exists (mk (CouchKVStore.mk false false [] revs) [] d').
  exists bytes.
  assert (Hlook : lookup d' (getVBucketId item) (getKey item)
                  = Some (mkStoredDoc bytes false)).
  { unfold d'. simpl. now rewrite Nat.eqb_refl, String.eqb_refl. }
  assert (Hlen : List.length bytes = 16%nat).
  { unfold bytes. rewrite !length_app, !host_bytes_length. reflexivity. }
  destruct (slices_V0 (host_bytes host 8 (MockCouchRequest.cas meta))
                      (host_bytes host 4 (MockCouchRequest.expiry meta))
                      (host_bytes host 4 (MockCouchRequest.flags meta))
                      (host_bytes_length _ _ _) (host_bytes_length _ _ _)
                      (host_bytes_length _ _ _)) as (S1 & S2 & _).
  fold bytes in S1, S2.
  assert (Hcas : be_load (MetaData.slice 0 8 bytes)
                 = htonll host (MockCouchRequest.cas meta)).
  { rewrite S1, be_load_host_bytes by assumption. reflexivity. }
  assert (Hexp : be_load (MetaData.slice 8 4 bytes)
                 = htonl host (MockCouchRequest.expiry meta)).
  { rewrite S2, be_load_host_bytes by assumption. reflexivity. }
  cbn [kvstore CouchKVStore.pendingReqsQ].
  repeat split.
  - unfold setAndReturnRequest, CouchKVStore.setAndReturnRequest. simpl.
    now rewrite Hrev.
  - unfold writeMetaData. rewrite writeMetaData_V0.
    cbn [rev_metas]. rewrite <- Hm, replace_nth_last. reflexivity.
  - unfold commit. cbn [kvstore CouchKVStore.isReadOnly CouchKVStore.readOnly
                        CouchKVStore.intransaction CouchKVStore.pendingReqsQ
                        CouchKVStore.dbFileRevMap rev_metas disk].
    rewrite write_docs_snoc by (symmetry; exact Hm). reflexivity.
  - exact Hlook.
  - exact Hlen.
  - unfold get. cbn [disk]. rewrite Hlook. cbn [stored_deleted andb].
    cbn [stored_rev_meta]. now apply get_metadata_V0.
  - now rewrite Hcas.
  - now rewrite Hexp.
  - subst host. exact (byteswap_reverses 8 _).
  - subst host. exact (byteswap_reverses 4 _).
Qed.
End RawV0.

(** C8 at the record of the test [fuzzV0] on a little-endian host: the CAS
    [0xF00FCAFE11225566] is read back as [0x66552211FECA0FF0], the expiry
    [0xAA00BB11] as [0x11BB00AA], the flags [0x01020304] as they are. *)
Lemma fuzzV0_read_back_witness :
  exists s4,
    (exists s1 req s2 s3,
       Couchstore.begin sample_couchstore = Ok (true, s1) /\
       Couchstore.setAndReturnRequest (fun _ => []) s1 (sample_set "key" 1)
         = Some (Ok (req, s2)) /\
       Couchstore.writeMetaData LittleEndian s2 0 fuzzV0_meta
         MockCouchRequest.sizeofV0 = Some s3 /\
       Couchstore.commit s3 = Ok (true, s4)) /\
    Couchstore.get LittleEndian Byte.x01 s4 "key" 0 false =
      (ENGINE_SUCCESS,
       Some (mkGetValue 0x66552211feca0ff0 0x11bb00aa 0x01020304
                        MetaData.PROTOCOL_BINARY_RAW_BYTES)).
Proof.
  destruct (fuzzV0_read_back LittleEndian Byte.x01 (fun _ => [])
              sample_couchstore (sample_set "key" 1) fuzzV0_meta
              eq_refl eq_refl (Nat.lt_0_succ 0)
              ltac:(cbv; split; congruence)
              ltac:(cbv; split; congruence)
              ltac:(cbv; split; congruence))
    as (s1 & req & s2 & s3 & s4 & rev_meta
        & Hb & Hs & Hw & Hc & _ & _ & Hget & _).
  exists s4. split.
  - exists s1, req, s2, s3. exact (conj Hb (conj Hs (conj Hw Hc))).
  - exact Hget.
Defined.

(** * Further properties of the code *)

(** ** [SystemEventFlush]: batches *)

Section FlushBatches.
Import SystemEventFlush.
Context `{SystemEventValues}.

Lemma process_outcome f item :
  (is_system_event item = true /\ has_known_event item = false /\
   process f item = Throw invalid_argument) \/
  (is_system_event item = true /\ has_known_event item = true /\
   exists status,
     process f item = Ok (status, saveCollectionsManifestItem f item)) \/
  (is_system_event item = false /\ process f item = Ok (Continue, f)).
Proof.
  destruct (is_system_event item) eqn:Hse.
  - apply is_system_event_true in Hse. unfold has_known_event.
    destruct (SystemEvent_of_flags (getFlags item)) as [e|] eqn:He.
    + right; left. repeat split.
      rewrite (process_system_event f item e Hse He). eauto.
    + left. repeat split. unfold process. now rewrite Hse, He.
  - right; right. split; [reflexivity|]. apply process_other.
    intros Hop. apply is_system_event_true in Hop. congruence.
Qed.

Lemma process_all_app f a b :
  process_all f (a ++ b) = (f' <- process_all f a ;; process_all f' b).
Proof.
  revert f. induction a as [|x a IH]; intros f; simpl; [reflexivity|].
  destruct (process f x) as [[st f1]|e]; simpl; [apply IH|reflexivity].
Qed.

(** X1.  Items that are not system events pass through [process] without a
    trace: a batch leaves the object exactly as its system events alone
    would, and throws exactly if they would. *)
Theorem batch_depends_on_system_events_only (f : t) (items : list Item) :
  process_all f items = process_all f (system_events items).
Proof.
  revert f. induction items as [|item items IH]; intros f; [reflexivity|].
  unfold system_events. simpl.
  destruct (process_outcome f item) as
      [(Hse & _ & Hp)|[(Hse & _ & st & Hp)|(Hse & Hp)]];
    rewrite Hse; simpl; rewrite Hp; simpl.
  - reflexivity.
  - apply IH.
  - apply IH.
Qed.

(** X2.  A batch is processed to the end exactly when every system event in it
    carries one of the five event codes; otherwise the exception that ends
    it is [std::invalid_argument]. *)
Theorem batch_completes_iff_codes_known (f : t) (items : list Item) :
  ((exists f', process_all f items = Ok f') <->
   Forall (fun it => is_system_event it = true -> has_known_event it = true)
          items) /\
  (forall e, process_all f items = Throw e -> e = invalid_argument).
Proof.
  revert f. induction items as [|item items IH]; intros f.
  - simpl. split; [split; eauto|]. intros e He. discriminate.
  - simpl.
    destruct (process_outcome f item) as
        [(Hse & Hk & Hp)|[(Hse & Hk & st & Hp)|(Hse & Hp)]];
      rewrite Hp; simpl.
    + split; [split|].
      * intros [f' Hf']. discriminate.
      * intros Hall. inversion Hall as [|? ? Hitem _]; subst.
        specialize (Hitem Hse). congruence.
      * intros e He. congruence.
    + destruct (IH (saveCollectionsManifestItem f item)) as [Hiff Hexn].
      split; [|exact Hexn]. rewrite Hiff. split.
      * intros Hall. constructor; auto.
      * intros Hall. now inversion Hall.
    + destruct (IH f) as [Hiff Hexn].
      split; [|exact Hexn]. rewrite Hiff. split.
      * intros Hall. constructor; [congruence|auto].
      * intros Hall. now inversion Hall.
Qed.


(** Items whose [bySeqno] does not exceed the saved one leave the object
    untouched. *)
Lemma process_all_not_higher items :
  Forall (fun it => is_system_event it = true -> has_known_event it = true)
         items ->
  forall f cur,
    getCollectionsManifestItem f = Some cur ->
    (forall it, In it (system_events items) ->
                getBySeqno it <= getBySeqno cur) ->
    process_all f items = Ok f.
Proof.
  induction 1 as [|item items Hitem _ IH]; intros f cur Hcur Hle;
    [reflexivity|].
  simpl. unfold system_events in Hle. simpl in Hle.
  destruct (process_outcome f item) as
      [(Hse & Hk & Hp)|[(Hse & Hk & st & Hp)|(Hse & Hp)]];
    rewrite Hp; simpl; rewrite Hse in Hle.
  - specialize (Hitem Hse). congruence.
  - rewrite (saveCollectionsManifestItem_not_higher f cur item Hcur)
      by (apply Hle; now left).
    apply (IH f cur Hcur). intros it Hin. apply Hle. now right.
  - apply (IH f cur Hcur). exact Hle.
Qed.

(** X4.  Which item of a batch is retained: the first one that carries the
    highest [bySeqno].  Every system event queued before it has a lower
    [bySeqno], none queued after it a higher one. *)
Theorem batch_retains_first_of_highest (before after : list Item)
    (it : Item) :
  Forall (fun x => is_system_event x = true /\ has_known_event x = true)
         (before ++ it :: after) ->
  (forall x, In x before -> getBySeqno x < getBySeqno it) ->
  (forall x, In x after -> getBySeqno x <= getBySeqno it) ->
  process_all empty (before ++ it :: after) = Ok (mk (Some it)).
Proof.
  intros Hall Hlt Hle.
  apply Forall_app in Hall. destruct Hall as [Hb Hrest].
  inversion Hrest as [|? ? [Hse Hk] Ha]; subst.
  assert (Hweak : forall l,
             Forall (fun x => is_system_event x = true /\
                              has_known_event x = true) l ->
             Forall (fun x => is_system_event x = true ->
                              has_known_event x = true) l).
  { intros l Hl. eapply Forall_impl; [|exact Hl]. simpl. tauto. }
  rewrite process_all_app.
  destruct (process_all_keeps_highest before (Hweak _ Hb) empty)
    as (f1 & Hrun & Hf1).
  rewrite Hrun. simpl.
  destruct (process_outcome f1 it) as
      [(_ & Hk' & _)|[(_ & _ & st & Hp)|(Hse' & _)]]; try congruence.
  rewrite Hp. simpl.
  assert (Hsaved : saveCollectionsManifestItem f1 it = mk (Some it)).
  { unfold saveCollectionsManifestItem.
    destruct f1 as [[cur|]]; simpl in *; [|reflexivity].
    destruct Hf1 as ([Hin|Hin] & _ & _); [discriminate|].
    assert (Hcur : getBySeqno cur < getBySeqno it).
    { apply Hlt. unfold system_events in Hin.
      apply filter_In in Hin. tauto. }
    rewrite orb_false_r.
    destruct (Z.gtb_spec (getBySeqno it) (getBySeqno cur)); [reflexivity|lia]. }
  rewrite Hsaved.
  apply (process_all_not_higher after (Hweak _ Ha) (mk (Some it)) it eq_refl).
  intros x Hin. apply Hle. unfold system_events in Hin.
  apply filter_In in Hin. tauto.
Qed.
End FlushBatches.

Section FlushOrder.
Import SystemEventFlush.
Context `{SystemEventValues}.

(** X5.  The [bySeqno] written with the manifest does not depend on the order in
    which the system events of a batch are queued: two batches with the
    same events retain items of the same [bySeqno]. *)
Theorem batch_retained_seqno_order_independent (items items' : list Item) :
  Permutation items items' ->
  Forall (fun it => is_system_event it = true /\ has_known_event it = true)
         items ->
  exists f f',
    process_all empty items = Ok f /\
    process_all empty items' = Ok f' /\
    option_map getBySeqno (getCollectionsManifestItem f) =
    option_map getBySeqno (getCollectionsManifestItem f').
Proof.
  intros Hperm Hall.
  assert (Hall' : Forall (fun it => is_system_event it = true /\
                                    has_known_event it = true) items').
  { eapply Permutation_Forall; eauto. }
  assert (Hsys : forall l,
             Forall (fun it => is_system_event it = true /\
                               has_known_event it = true) l ->
             system_events l = l /\
             Forall (fun it => is_system_event it = true ->
                               has_known_event it = true) l).
  { intros l Hl. split.
    - unfold system_events. apply forallb_filter_id.
      apply forallb_forall. intros x Hx.
      rewrite Forall_forall in Hl. now apply Hl.
    - eapply Forall_impl; [|exact Hl]. simpl. tauto. }
  destruct (Hsys _ Hall) as [Hs Hk]. destruct (Hsys _ Hall') as [Hs' Hk'].
  destruct (process_all_keeps_highest items Hk empty) as (f & Hrun & Hf).
  destruct (process_all_keeps_highest items' Hk' empty) as (f' & Hrun' & Hf').
  exists f, f'. repeat split; auto.
  rewrite Hs in Hf. rewrite Hs' in Hf'.
  destruct (getCollectionsManifestItem f) as [it|],
           (getCollectionsManifestItem f') as [it'|]; simpl.
  - destruct Hf as ([Hin|Hin] & _ & Hmax); [discriminate|].
    destruct Hf' as ([Hin'|Hin'] & _ & Hmax'); [discriminate|].
    f_equal. apply Z.le_antisymm.
    + apply Hmax'. eapply Permutation_in; eauto.
    + apply Hmax. eapply Permutation_in; [symmetry|]; eauto.
  - destruct Hf as ([Hin|Hin] & _); [discriminate|].
    destruct Hf' as (_ & Hnil). subst items'.
    apply Permutation_sym, Permutation_nil in Hperm. subst. destruct Hin.
  - destruct Hf' as ([Hin|Hin] & _); [discriminate|].
    destruct Hf as (_ & Hnil). subst items.
    apply Permutation_nil in Hperm. subst. destruct Hin.
  - reflexivity.
Qed.
End FlushOrder.

(** ** From the factory to the flusher and to replication *)

Section FactoryDownstream.
Import SystemEventFactory.
Context `{SystemEventValues} `{ItemDefaults}.
Hypothesis distinct : enumerators_distinct.
Hypothesis fit : enumerators_fit.

(** X6.  Every item the factory builds is recognised downstream, whatever the
    event, the collection name, the size and the seqno: [process] of the
    flusher never throws on it, saves it and skips it only for
    [BeginDeleteCollection]; [isUpsert] throws on it only for
    [BeginDeleteCollection]; replication skips it only for the two
    deletions (or when it should not replicate at all). *)
Theorem made_items_are_recognised (se : SystemEvent) (n : string) (sz : Z)
    (seqno : option Z) (f : SystemEventFlush.t)
    (shouldReplicate : Item -> bool) :
  let item := make se n sz seqno in
  SystemEventFlush.process f item =
    Ok (match se with BeginDeleteCollection => Skip | _ => Continue end,
        SystemEventFlush.saveCollectionsManifestItem f item) /\
  SystemEventFlush.isUpsert item =
    match se with
    | BeginDeleteCollection => Throw invalid_argument
    | CreateCollection | CollectionsSeparatorChanged => Ok true
    | DeleteCollectionHard | DeleteCollectionSoft => Ok false
    end /\
  SystemEventReplicate.process shouldReplicate item =
    if shouldReplicate item then
      match se with
      | DeleteCollectionHard | DeleteCollectionSoft => Skip
      | _ => Continue
      end
    else Skip.
Proof.
  intros item.
  pose proof (make_flags_decode se n sz seqno distinct fit) as Hdec.
  destruct (make_namespace_flags se n sz seqno) as (_ & _ & Hop).
  fold item in Hdec, Hop.
  repeat split.
  - now apply process_system_event.
  - unfold SystemEventFlush.isUpsert. rewrite Hop, Hdec. simpl.
    destruct se; reflexivity.
  - unfold SystemEventReplicate.process. rewrite Hop, Hdec. simpl.
    destruct (shouldReplicate item); destruct se; reflexivity.
Qed.
End FactoryDownstream.

(** ** [SystemEventFactory::make]: keys *)

Section FactoryKeys.
Import CollectionsKeys SystemEventFactory.

Lemma append_injective (p a b : string) :
  (p ++ a)%string = (p ++ b)%string -> a = b.
Proof.
  induction p as [|c p IH]; simpl; intros Heq; [exact Heq|].
  inversion Heq. auto.
Qed.

(** X7.  The key the factory derives tells collections apart exactly for
    [CreateCollection] and [BeginDeleteCollection]: for these two events
    equal keys mean equal collection names, while for the other three
    events the key is the same for every collection name. *)
Theorem make_key_separates_collections (se : SystemEvent) :
  match se with
  | CreateCollection | BeginDeleteCollection =>
      forall n1 n2, make_key se n1 = make_key se n2 -> n1 = n2
  | DeleteCollectionHard | DeleteCollectionSoft
  | CollectionsSeparatorChanged =>
      forall n1 n2, make_key se n1 = make_key se n2
  end.
Proof.
  destruct se; intros n1 n2; try reflexivity.
  - rewrite !make_key_CreateCollection. apply append_injective.
  - rewrite !make_key_BeginDeleteCollection. apply append_injective.
Qed.
End FactoryKeys.

(** ** [SystemEventProducerMessage::make] *)

Section ProducerMessage.
Context `{SystemEventValues}.
Variable getSystemEventData : Item -> string * list Byte.byte.
Variable getSystemEventSeparatorData : Item -> string * list Byte.byte.
Variable shouldReplicate : Item -> bool.

(** X8.  The replication filter protects the message factory: for a system
    event that should replicate and carries one of the five event codes,
    [SystemEventProducerMessage::make] throws ([std::logic_error]) exactly
    when [SystemEventReplicate::process] returns [Skip]; an item the filter
    lets [Continue] always yields a message, which carries the opaque and
    the item it was made from. *)
Theorem producer_message_throws_iff_filtered (opaque : Z) (item : Item) :
  is_system_event item = true ->
  has_known_event item = true ->
  shouldReplicate item = true ->
  (SystemEventReplicate.process shouldReplicate item = Skip <->
   SystemEventProducerMessage.make getSystemEventData
     getSystemEventSeparatorData opaque item = Throw logic_error) /\
  (SystemEventReplicate.process shouldReplicate item = Continue <->
   exists m, SystemEventProducerMessage.make getSystemEventData
     getSystemEventSeparatorData opaque item = Ok m /\
             SystemEventProducerMessage.msg_opaque m = opaque /\
             SystemEventProducerMessage.msg_item m = item).
Proof.
  intros Hse Hk Hrep. apply is_system_event_true in Hse.
  unfold has_known_event in Hk.
  unfold SystemEventProducerMessage.make,
    SystemEventReplicate.process.
  rewrite Hrep, Hse. simpl.
  destruct (SystemEvent_of_flags (getFlags item)) as [[]|];
    try discriminate Hk;
    (split; split; intros Hx);
    first [ reflexivity
          | discriminate Hx
          | destruct Hx as (m & Hm & _); discriminate Hm
          | eexists; repeat split; reflexivity ].
Qed.

(** X9.  A system event whose flags are none of the five codes is not an error
    on the replication side: the filter skips it, and a message made from
    it has an empty key and empty event data; the flusher's [process], in
    contrast, throws [std::invalid_argument] on it. *)
Theorem unknown_event_code_is_not_an_error_in_replication (opaque : Z)
    (item : Item) (f : SystemEventFlush.t) :
  is_system_event item = true ->
  has_known_event item = false ->
  SystemEventReplicate.process shouldReplicate item = Skip /\
  SystemEventProducerMessage.make getSystemEventData
     getSystemEventSeparatorData opaque item =
    Ok (SystemEventProducerMessage.mk opaque item EmptyString []) /\
  SystemEventFlush.process f item = Throw invalid_argument.
Proof.
  intros Hse Hk. apply is_system_event_true in Hse.
  unfold has_known_event in Hk.
  unfold SystemEventProducerMessage.make,
    SystemEventReplicate.process, SystemEventFlush.process.
  rewrite Hse. simpl.
  destruct (SystemEvent_of_flags (getFlags item)); [discriminate|].
  destruct (shouldReplicate item); auto.
Qed.
End ProducerMessage.

(** ** [CouchKVStore]: how the transaction methods compose *)

Section TransactionsCompose.
Import CouchKVStore CouchKVStoreInline.

(** X11.  [begin()] and [rollback()] undo each other on a read/write store:
    outside a transaction [begin()] followed by [rollback()] gives the
    store back as it was, and inside a transaction so does [rollback()]
    followed by [begin()], the queue of pending requests included. *)
Theorem begin_and_rollback_are_inverse (s : t) :
  isReadOnly s = false ->
  (intransaction s = false ->
   (r <- begin s ;; rollback (snd r)) = Ok s) /\
  (intransaction s = true ->
   (s' <- rollback s ;; begin s') = Ok (true, s)).
Proof.
  intros Hrw. destruct s as [ro intx q revs].
  unfold begin, rollback, isReadOnly in *. simpl in *. subst ro.
  split; intros Hin; subst intx; reflexivity.
Qed.

(** X12.  A read-only store rejects every write method with [std::logic_error],
    whatever its transaction flag and whatever the item: the read-only
    test comes first in [begin], [rollback] and [set]. *)
Theorem read_only_store_rejects_writes (s : t) (itm : Item) :
  isReadOnly s = true ->
  begin s = Throw logic_error /\
  rollback s = Throw logic_error /\
  setAndReturnRequest s itm = Some (Throw logic_error) /\
  (forall items, items <> [] -> set_each s items = Some (Throw logic_error)).
Proof.
  intros Hro. unfold begin, rollback, setAndReturnRequest.
  rewrite Hro. repeat split.
  intros [|x items] Hne; [contradiction|].
  simpl. unfold setAndReturnRequest. now rewrite Hro.
Qed.

(** X13.  [set] is accepted only between [begin()] and [rollback()]: on a
    read/write store with no transaction open it throws
    [std::invalid_argument], and so it does right after a [rollback()]. *)
Theorem set_needs_open_transaction (s : t) (itm : Item) :
  isReadOnly s = false ->
  (intransaction s = false ->
   setAndReturnRequest s itm = Some (Throw invalid_argument)) /\
  (forall s', rollback s = Ok s' ->
   setAndReturnRequest s' itm = Some (Throw invalid_argument)).
Proof.
  intros Hrw. destruct s as [ro intx q revs].
  unfold rollback, setAndReturnRequest, isReadOnly in *. simpl in *.
  subst ro. split.
  - intros Hout. now subst intx.
  - destruct intx; intros s' Hs'; inversion Hs'; subst; reflexivity.
Qed.

Lemma set_each_queues (items : list Item) :
  forall s,
    isReadOnly s = false ->
    intransaction s = true ->
    Forall (fun itm => (getVBucketId itm < List.length (dbFileRevMap s))%nat)
           items ->
    exists reqs,
      map (request_for s) items = map Some reqs /\
      set_each s items =
        Some (Ok (mk false true (pendingReqsQ s ++ reqs) (dbFileRevMap s))).
Proof.
  induction items as [|itm items IH]; intros s Hrw Hin Hall.
  - exists []. split; [reflexivity|]. simpl. rewrite app_nil_r.
    destruct s; simpl in *; subst; reflexivity.
  - inversion Hall as [|? ? Hvb Hrest]; subst.
    apply nth_error_Some in Hvb.
    destruct (nth_error (dbFileRevMap s) (getVBucketId itm)) as [rev|] eqn:Hrev;
      [|contradiction].
    simpl. rewrite (setAndReturnRequest_queues s itm rev Hrw Hin Hrev).
    destruct (IH (push_back s (mkRequest itm rev false false)) Hrw Hin Hrest)
      as (reqs & Hreqs & Hrun).
    exists (mkRequest itm rev false false :: reqs). split.
    + simpl. unfold request_for at 1. rewrite Hrev. simpl. f_equal.
      exact Hreqs.
    + rewrite Hrun. simpl. now rewrite <- app_assoc.
Qed.

(** X14.  Inside a transaction of a read/write store a write loop appends one
    request per item to the end of the queue, in the order of the items;
    the requests queued before stay in front and unchanged, each new
    request carries its item, the file revision of the item's vbucket and
    no delete flag, and the transaction stays open. *)
Theorem set_each_appends_in_order (s : t) (items : list Item) :
  isReadOnly s = false ->
  intransaction s = true ->
  Forall (fun itm => (getVBucketId itm < List.length (dbFileRevMap s))%nat)
         items ->
  exists s' reqs,
    set_each s items = Some (Ok s') /\
    pendingReqsQ s' = pendingReqsQ s ++ reqs /\
    map request_item reqs = items /\
    Forall (fun r =>
              deleteItem r = false /\
              nth_error (dbFileRevMap s) (getVBucketId (request_item r))
                = Some (fileRevNum r)) reqs /\
    intransaction s' = true /\
    dbFileRevMap s' = dbFileRevMap s.
Proof.
  intros Hrw Hin Hall.
  destruct (set_each_queues items s Hrw Hin Hall) as (reqs & Hreqs & Hrun).
  exists (mk false true (pendingReqsQ s ++ reqs) (dbFileRevMap s)), reqs.
  repeat split; auto.
  - clear Hrun Hall. revert reqs Hreqs.
    induction items as [|itm items IH]; intros [|r reqs] Hreqs;
      try discriminate; [reflexivity|].
    simpl in Hreqs. inversion Hreqs as [[Hr Hrest]].
    unfold request_for in Hr.
    destruct (nth_error (dbFileRevMap s) (getVBucketId itm)); [|discriminate].
    inversion Hr; subst. simpl. f_equal. now apply IH.
  - clear Hrun Hall. revert reqs Hreqs.
    induction items as [|itm items IH]; intros [|r reqs] Hreqs;
      try discriminate; constructor.
    + simpl in Hreqs. inversion Hreqs as [[Hr Hrest]].
      unfold request_for in Hr.
      destruct (nth_error (dbFileRevMap s) (getVBucketId itm)) eqn:Hrev;
        [|discriminate].
      inversion Hr; subst. simpl. auto.
    + simpl in Hreqs. inversion Hreqs. now apply IH.
Qed.
End TransactionsCompose.

(** ** common.hh: [less_tv] *)

Section Timevals.
Import common.

(** X15.  [less_tv] is a strict total order on time values: nothing is less than
    itself, it is transitive, and of two different time values exactly one
    is less than the other. *)
Theorem less_tv_strict_total_order :
  (forall a, less_tv a a = false) /\
  (forall a b c, less_tv a b = true -> less_tv b c = true ->
                 less_tv a c = true) /\
  (forall a b, less_tv a b = true -> less_tv b a = false) /\
  (forall a b, less_tv a b = false -> less_tv b a = false -> a = b).
Proof.
  unfold less_tv. repeat split.
  - intros a. rewrite Z.eqb_refl. apply Z.ltb_irrefl.
  - intros a b c.
    destruct (Z.eqb_spec (tv_sec a) (tv_sec b)),
             (Z.eqb_spec (tv_sec b) (tv_sec c)),
             (Z.eqb_spec (tv_sec a) (tv_sec c));
      rewrite ?Z.ltb_lt; lia.
  - intros a b.
    destruct (Z.eqb_spec (tv_sec a) (tv_sec b)),
             (Z.eqb_spec (tv_sec b) (tv_sec a));
      rewrite ?Z.ltb_lt, ?Z.ltb_ge; lia.
  - intros [sa ua] [sb ub]. simpl.
    destruct (Z.eqb_spec sa sb), (Z.eqb_spec sb sa);
      rewrite ?Z.ltb_ge; intros; try lia.
    f_equal; lia.
Qed.

(** X16.  For time values whose microseconds lie within one second, [less_tv]
    compares the instants: it holds exactly when the first time value is
    fewer microseconds than the second. *)
Theorem less_tv_compares_microseconds (a b : timeval) :
  normalised a -> normalised b ->
  less_tv a b = (microseconds a <? microseconds b).
Proof.
  unfold normalised, microseconds, less_tv. intros Ha Hb.
  destruct (Z.eqb_spec (tv_sec a) (tv_sec b)) as [Heq|Hne].
  - rewrite Heq.
    destruct (Z.ltb_spec (tv_usec a) (tv_usec b)),
             (Z.ltb_spec (tv_sec b * 1000000 + tv_usec a)
                         (tv_sec b * 1000000 + tv_usec b)); lia.
  - destruct (Z.ltb_spec (tv_sec a) (tv_sec b)),
             (Z.ltb_spec (tv_sec a * 1000000 + tv_usec a)
                         (tv_sec b * 1000000 + tv_usec b)); lia.
Qed.
End Timevals.

(** X16 at two normalised time values; without the bound the comparison
    is not one of instants: 0 s and
    2,000,000 us is later than 1 s and 0 us, yet [less_tv] puts it first. *)
Lemma less_tv_compares_microseconds_witness :
  common.less_tv (common.mk_timeval 1 999999) (common.mk_timeval 2 0) = true /\
  common.less_tv (common.mk_timeval 0 2000000) (common.mk_timeval 1 0) = true.
Proof.
  split.
  - rewrite (less_tv_compares_microseconds
               (common.mk_timeval 1 999999) (common.mk_timeval 2 0));
      [reflexivity|unfold normalised; simpl; lia..].
  - reflexivity.
Defined.

(** ** [getDBFileId] *)

(** X17.  [getDBFileId] undoes the network byte order of the request header on a
    host of either byte order: for a vbucket id that fits 16 bits, a header
    whose field was filled with [htons(vb)] gives back [vb], and the file
    id is always a 16-bit value. *)
Theorem getDBFileId_decodes_network_order (host : endianness) (vb : Z) :
  0 <= vb < 65536 ->
  CouchKVStoreInline.getDBFileId host (htons host vb) = vb /\
  0 <= CouchKVStoreInline.getDBFileId host vb < 65536.
Proof.
  intros Hvb. unfold CouchKVStoreInline.getDBFileId, ntohs, htons.
  destruct host.
  - split; [now apply (byteswap_involutive 2)|apply (byteswap_range 2)].
  - split; [reflexivity|exact Hvb].
Qed.

(** X17: the vbucket 1 travels as 0x0100 on a little-endian host. *)
Lemma getDBFileId_decodes_network_order_witness :
  CouchKVStoreInline.getDBFileId LittleEndian 256 = 1.
Proof.
  exact (proj1 (getDBFileId_decodes_network_order LittleEndian 1
                  ltac:(lia))).
Defined.

(** ** The checker of [checkpoint_consistency] *)

Section CheckerMeaning.
Import CheckpointConsistency.
Context `{SystemEventValues}.
Hypothesis distinct : enumerators_distinct.

Lemma create_is_not_begin_delete c :
  is_create_fruit c = true -> is_begin_delete_fruit c = false.
Proof.
  unfold is_create_fruit, is_begin_delete_fruit. intros Hc.
  apply andb_prop in Hc. destruct Hc as [Hc _].
  apply andb_prop in Hc. destruct Hc as [_ Hc]. apply Z.eqb_eq in Hc.
  destruct (Z.eqb_spec (enumerator BeginDeleteCollection) (getFlags c))
    as [Hbd|Hbd].
  - rewrite <- Hbd in Hc. apply distinct in Hc. discriminate.
  - now rewrite andb_false_r.
Qed.

Lemma unchecked_is_no_event item :
  is_system_event item = false ->
  is_create_fruit item = false /\ is_begin_delete_fruit item = false.
Proof.
  unfold is_system_event, is_create_fruit, is_begin_delete_fruit.
  intros Hop. now rewrite Hop.
Qed.

Lemma opened_nil o : opened o [] <-> o = true.
Proof.
  unfold opened, fruit_open_after. split.
  - intros [[Ho _]|(p1 & c & p2 & Heq & _)]; [exact Ho|].
    now destruct p1.
  - intros Ho. left. split; [exact Ho|constructor].
Qed.

Lemma opened_cons o item pre :
  opened o (item :: pre) <-> opened (open_next item o) pre.
Proof.
  unfold opened, open_next, fruit_open_after.
  destruct (is_begin_delete_fruit item) eqn:Hbd;
    [|destruct (is_create_fruit item) eqn:Hcr].
  - split.
    + intros [[_ Hall]|(p1 & c & p2 & Heq & Hc & Hall)].
      * inversion Hall; congruence.
      * destruct p1 as [|x p1]; simpl in Heq; inversion Heq; subst.
        -- apply create_is_not_begin_delete in Hc. congruence.
        -- right. eauto 6.
    + intros [[Ho _]|(p1 & c & p2 & Heq & Hc & Hall)]; [discriminate|].
      right. exists (item :: p1), c, p2. subst. auto.
  - split.
    + intros [[_ Hall]|(p1 & c & p2 & Heq & Hc & Hall)].
      * left. split; [reflexivity|now inversion Hall].
      * destruct p1 as [|x p1]; simpl in Heq; inversion Heq; subst.
        -- left. auto.
        -- right. eauto 6.
    + intros [[_ Hall]|(p1 & c & p2 & Heq & Hc & Hall)].
      * right. exists [], item, pre. auto.
      * right. exists (item :: p1), c, p2. subst. auto.
  - split.
    + intros [[Ho Hall]|(p1 & c & p2 & Heq & Hc & Hall)].
      * left. split; [exact Ho|now inversion Hall].
      * destruct p1 as [|x p1]; simpl in Heq; inversion Heq; subst.
        -- congruence.
        -- right. eauto 6.
    + intros [[Ho Hall]|(p1 & c & p2 & Heq & Hc & Hall)].
      * left. split; [exact Ho|now constructor].
      * right. exists (item :: p1), c, p2. subst. auto.
Qed.

Lemma splits_of_cons (P : list Item -> Item -> Prop) item rest :
  (forall pre s post, item :: rest = pre ++ s :: post -> P pre s) <->
  P [] item /\
  (forall pre s post, rest = pre ++ s :: post -> P (item :: pre) s).
Proof.
  split.
  - intros Hall. split.
    + apply (Hall [] item rest). reflexivity.
    + intros pre s post Heq. apply (Hall (item :: pre) s post).
      simpl. now rewrite Heq.
  - intros [Hhd Htl] pre s post Heq.
    destruct pre as [|x pre]; simpl in Heq; inversion Heq; subst.
    + exact Hhd.
    + eapply Htl. reflexivity.
Qed.

Lemma seqnos_ascend_cons last s l :
  seqnos_ascend last (s :: l) <->
  match last with Some p => p <? s | None => true end = true /\
  seqnos_ascend (Some s) l.
Proof.
  unfold seqnos_ascend. destruct last as [p|].
  - rewrite Z.ltb_lt. split.
    + intros Hs. inversion Hs as [|? ? Hrest Hhd]; subst.
      inversion Hhd; subst. auto.
    + intros [Hlt Hs]. constructor; [exact Hs|now constructor].
  - tauto.
Qed.

(** What the loop has verified when it is through with [items], started
    in any state. *)
Lemma loop_passed_iff (items : list Item) :
  forall st,
    passed (fold_left loop_body items st) = true <->
    passed st = true /\
    seqnos_ascend (seqno st) (checked_seqnos items) /\
    (forall pre s post,
       items = pre ++ s :: post ->
       getOperation s = queue_op.set -> opened (open st) pre).
Proof.
  induction items as [|item rest IH]; intros st.
  - simpl. split.
    + intros Hp. repeat split; auto.
      * unfold seqnos_ascend. destruct (seqno st); repeat constructor.
      * intros pre s post Heq. now destruct pre.
    + tauto.
  - cbn [fold_left]. rewrite IH.
    rewrite (splits_of_cons
               (fun pre s => getOperation s = queue_op.set ->
                             opened (open st) pre)).
    unfold loop_body, checked_seqnos. cbn [filter map].
    destruct (is_checked item) eqn:Hck; cbn [negb].
    + cbn [passed seqno open map]. rewrite seqnos_ascend_cons.
      fold (checked_seqnos rest).
      rewrite opened_nil.
      assert (Hnext :
                (if is_begin_delete_fruit item then false
                 else if is_create_fruit item then true else open st)
                = open_next item (open st)) by reflexivity.
      rewrite Hnext.
      assert (Hset :
                (if queue_op.eqb (getOperation item) queue_op.set
                 then open_next item (open st) else true) = true <->
                (getOperation item = queue_op.set -> open st = true)).
      { destruct (queue_op_eqb_spec (getOperation item) queue_op.set)
          as [Hop|Hop].
        - assert (Hns : is_system_event item = false).
          { unfold is_system_event. rewrite Hop. reflexivity. }
          destruct (unchecked_is_no_event item Hns) as [Hc Hb].
          unfold open_next. rewrite Hc, Hb. tauto.
        - tauto. }
      rewrite !andb_true_iff, Hset.
      assert (Htl :
                (forall pre s post,
                   rest = pre ++ s :: post ->
                   getOperation s = queue_op.set ->
                   opened (open_next item (open st)) pre) <->
                (forall pre s post,
                   rest = pre ++ s :: post ->
                   getOperation s = queue_op.set ->
                   opened (open st) (item :: pre))).
      { split; intros Hall pre s post Heq Hop;
          apply opened_cons || apply <- opened_cons; eauto. }
      rewrite Htl. tauto.
    + fold (checked_seqnos rest).
      assert (Hns : is_system_event item = false).
      { unfold is_checked in Hck. apply orb_false_elim in Hck. tauto. }
      assert (Hnot_set : getOperation item <> queue_op.set).
      { intros Hop. unfold is_checked in Hck. rewrite Hop in Hck.
        discriminate. }
      destruct (unchecked_is_no_event item Hns) as [Hc Hb].
      assert (Htl :
                (forall pre s post,
                   rest = pre ++ s :: post ->
                   getOperation s = queue_op.set ->
                   opened (open st) pre) <->
                (forall pre s post,
                   rest = pre ++ s :: post ->
                   getOperation s = queue_op.set ->
                   opened (open st) (item :: pre))).
      { split; intros Hall pre s post Heq Hop.
        - apply opened_cons. unfold open_next. rewrite Hc, Hb. eauto.
        - specialize (Hall pre s post Heq Hop).
          apply opened_cons in Hall. unfold open_next in Hall.
          now rewrite Hc, Hb in Hall. }
      rewrite Htl. tauto.
Qed.

(** X18.  What the test verifies.  The check of [checkpoint_consistency] passes
    exactly on a non-empty list of items in which the [bySeqno] of the sets
    and system events ascends strictly in queue order, and in which every
    set comes after a [CreateCollection] event of the fruit collection
    with no [BeginDeleteCollection] event of that collection in between.
    Items of any other operation have no influence on the verdict. *)
Theorem check_passes_iff_consistent (items : list Item) :
  check items = true <->
  items <> [] /\
  Sorted Z.lt (checked_seqnos items) /\
  (forall pre s post,
     items = pre ++ s :: post ->
     getOperation s = queue_op.set -> fruit_open_after pre).
Proof.
  assert (Hinit : forall pre, opened false pre <-> fruit_open_after pre).
  { intros pre. unfold opened. split; [|tauto].
    intros [[Ho _]|Hf]; [discriminate|exact Hf]. }
  destruct items as [|item rest].
  - simpl. split; [discriminate|]. intros [Hne _]. contradiction.
  - unfold check. rewrite loop_passed_iff. simpl open. simpl passed.
    simpl seqno. unfold seqnos_ascend. split.
    + intros (_ & Hs & Hall). repeat split; [discriminate|exact Hs|].
      intros pre s post Heq Hop. apply Hinit. eauto.
    + intros (_ & Hs & Hall). repeat split; [exact Hs|].
      intros pre s post Heq Hop. apply Hinit. eauto.
Qed.
End CheckerMeaning.

(** X18 at a checkpoint that creates the fruit collection, sets one key in
    it and then begins its deletion. *)
Lemma check_passes_iff_consistent_witness :
  let items :=
    [sample_event CreateCollection "$collections::create:fruit" 1;
     sample_fruit_set "fruit::key0" 2;
     sample_event BeginDeleteCollection "$collections::delete:fruit" 3] in
  items <> [] /\
  Sorted Z.lt (@checked_seqnos declared_values items) /\
  (forall pre s post,
     items = pre ++ s :: post ->
     getOperation s = queue_op.set ->
     @fruit_open_after declared_values pre).
Proof.
  intros items.
  exact (proj1 (@check_passes_iff_consistent declared_values
                  declared_values_distinct items) eq_refl).
Defined.

(** ** Flusher and replication together *)

Section FlushAndReplicate.
Context `{SystemEventValues}.
Variable shouldReplicate : Item -> bool.

(** X10.  No collection event is dropped on both paths: for a system event
    with one of the five codes that should replicate, the flusher's
    [process] returns without throwing, and if it skips the item
    ([BeginDeleteCollection]) then replication lets it continue; if
    replication skips it (the two deletions) the flusher lets it
    continue. *)
Theorem event_reaches_disk_or_replicas (f : SystemEventFlush.t)
    (item : Item) :
  is_system_event item = true ->
  has_known_event item = true ->
  shouldReplicate item = true ->
  exists status f',
    SystemEventFlush.process f item = Ok (status, f') /\
    (status = Continue \/
     SystemEventReplicate.process shouldReplicate item = Continue).
Proof.
  intros Hse Hk Hrep. apply is_system_event_true in Hse.
  unfold has_known_event in Hk.
  unfold SystemEventFlush.process, SystemEventReplicate.process.
  rewrite Hse, Hrep. simpl.
  destruct (SystemEvent_of_flags (getFlags item)) as [[]|];
    try discriminate Hk; eauto.
Qed.
End FlushAndReplicate.

(** ** Concrete instances *)


(** X4 at a batch with seqnos 5, 9, 7, 9: the first event with seqno 9 is
    the one retained. *)
Lemma batch_retains_first_of_highest_witness :
  @SystemEventFlush.process_all declared_values SystemEventFlush.empty
    [sample_event CreateCollection "$collections::create:meat" 5;
     sample_event CollectionsSeparatorChanged "$collections::separator" 9;
     sample_event BeginDeleteCollection "$collections::delete:meat" 7;
     sample_event CreateCollection "$collections::create:fruit" 9]
  = Ok (SystemEventFlush.mk
          (Some (sample_event CollectionsSeparatorChanged
                              "$collections::separator" 9))).
Proof.
  apply (@batch_retains_first_of_highest declared_values
           [sample_event CreateCollection "$collections::create:meat" 5]
           [sample_event BeginDeleteCollection "$collections::delete:meat" 7;
            sample_event CreateCollection "$collections::create:fruit" 9]
           (sample_event CollectionsSeparatorChanged
                         "$collections::separator" 9)).
  - repeat constructor.
  - intros x [Hx|[]]; subst x; simpl; lia.
  - intros x [Hx|[Hx|[]]]; subst x; simpl; lia.
Defined.

(** X5 at a batch of two events and the same batch in the other order. *)
Lemma batch_retained_seqno_order_independent_witness :
  let a := sample_event CreateCollection "$collections::create:meat" 5 in
  let b := sample_event BeginDeleteCollection "$collections::delete:meat" 9 in
  exists f f',
    @SystemEventFlush.process_all declared_values SystemEventFlush.empty
      [a; b] = Ok f /\
    @SystemEventFlush.process_all declared_values SystemEventFlush.empty
      [b; a] = Ok f' /\
    option_map getBySeqno (SystemEventFlush.getCollectionsManifestItem f) =
    option_map getBySeqno (SystemEventFlush.getCollectionsManifestItem f').
Proof.
  intros a b.
  apply (@batch_retained_seqno_order_independent declared_values
           [a; b] [b; a]).
  - apply perm_swap.
  - repeat constructor.
Defined.

(** X6 at the begin-delete event of the collection [meat]. *)
Lemma made_items_are_recognised_witness :
  let item := @SystemEventFactory.make declared_values sample_defaults
                BeginDeleteCollection "meat" 0 (Some 7) in
  @SystemEventFlush.process declared_values SystemEventFlush.empty item
  = Ok (Skip,
        SystemEventFlush.saveCollectionsManifestItem
          SystemEventFlush.empty item).
Proof.
  intros item.
  exact (proj1 (@made_items_are_recognised declared_values sample_defaults
                  declared_values_distinct declared_values_fit
                  BeginDeleteCollection "meat" 0 (Some 7)
                  SystemEventFlush.empty (fun _ => true))).
Defined.

(** X8 at a hard-delete event: the filter skips it and the message factory
    would throw. *)
Lemma producer_message_throws_iff_filtered_witness :
  @SystemEventProducerMessage.make declared_values sample_event_data
     sample_event_data 1
     (sample_event DeleteCollectionHard "$collections::separator" 4)
  = Throw logic_error.
Proof.
  exact (proj1 (proj1 (@producer_message_throws_iff_filtered declared_values
                         sample_event_data sample_event_data (fun _ => true)
                         1
                         (sample_event DeleteCollectionHard
                                       "$collections::separator" 4)
                         eq_refl eq_refl eq_refl))
               eq_refl).
Defined.

(** X9 at a system event with flags 99. *)
Lemma unknown_event_code_is_not_an_error_in_replication_witness :
  @SystemEventReplicate.process (fun _ => true) declared_values
     sample_unknown_event = Skip /\
  @SystemEventProducerMessage.make declared_values sample_event_data
     sample_event_data 1 sample_unknown_event
  = Ok (SystemEventProducerMessage.mk 1 sample_unknown_event EmptyString []) /\
  @SystemEventFlush.process declared_values SystemEventFlush.empty
     sample_unknown_event = Throw invalid_argument.
Proof.
  exact (@unknown_event_code_is_not_an_error_in_replication declared_values
           sample_event_data sample_event_data (fun _ => true) 1
           sample_unknown_event SystemEventFlush.empty eq_refl eq_refl).
Defined.

(** X10 at a begin-delete event: skipped by the flusher, replicated. *)
Lemma event_reaches_disk_or_replicas_witness :
  let item :=
    sample_event BeginDeleteCollection "$collections::delete:meat" 7 in
  exists status f',
    @SystemEventFlush.process declared_values SystemEventFlush.empty item
      = Ok (status, f') /\
    (status = Continue \/
     @SystemEventReplicate.process (fun _ => true) declared_values item
       = Continue).
Proof.
  intros item.
  exact (@event_reaches_disk_or_replicas declared_values (fun _ => true)
           SystemEventFlush.empty item eq_refl eq_refl eq_refl).
Defined.

(** X11 at the sample read/write store. *)
Lemma begin_and_rollback_are_inverse_witness :
  (r <- CouchKVStore.begin sample_rw_store ;; CouchKVStore.rollback (snd r))
  = Ok sample_rw_store.
Proof.
  exact (proj1 (begin_and_rollback_are_inverse sample_rw_store eq_refl)
               eq_refl).
Defined.

(** X12 at the sample read-only store. *)
Lemma read_only_store_rejects_writes_witness :
  CouchKVStore.begin sample_ro_store = Throw logic_error /\
  CouchKVStore.rollback sample_ro_store = Throw logic_error /\
  CouchKVStore.setAndReturnRequest sample_ro_store (sample_set "key" 1)
    = Some (Throw logic_error).
Proof.
  destruct (read_only_store_rejects_writes sample_ro_store
              (sample_set "key" 1) eq_refl) as (Hb & Hr & Hs & _).
  exact (conj Hb (conj Hr Hs)).
Defined.

(** X13 at the sample read/write store, where no transaction is open. *)
Lemma set_needs_open_transaction_witness :
  CouchKVStore.setAndReturnRequest sample_rw_store (sample_set "key" 1)
  = Some (Throw invalid_argument).
Proof.
  exact (proj1 (set_needs_open_transaction sample_rw_store
                  (sample_set "key" 1) eq_refl)
               eq_refl).
Defined.

(** X14 at two sets in an open transaction that already holds one
    request. *)
Lemma set_each_appends_in_order_witness :
  let old := CouchKVStore.mkRequest (sample_set "key0" 1) 1 false false in
  let s := CouchKVStore.mk false true [old] [1] in
  exists s' reqs,
    CouchKVStoreInline.set_each s [sample_set "key1" 2; sample_set "key2" 3]
      = Some (Ok s') /\
    CouchKVStore.pendingReqsQ s' = [old] ++ reqs /\
    map CouchKVStore.request_item reqs
      = [sample_set "key1" 2; sample_set "key2" 3].
Proof.
  intros old s.
  destruct (set_each_appends_in_order s
              [sample_set "key1" 2; sample_set "key2" 3]
              eq_refl eq_refl ltac:(repeat constructor))
    as (s' & reqs & Hrun & Hq & Hitems & _).
  exists s', reqs. exact (conj Hrun (conj Hq Hitems)).
Defined.

(** ** [SystemEventFlush]: what a batch keeps *)

Section FlushInvariant.
Import SystemEventFlush.
Context `{SystemEventValues}.

(** X19.  Once an item is saved it is never lost and never replaced by a
    lower one: whatever batch follows (sets, deletes and system events
    with known codes, in any order), afterwards an item is still saved, its
    [bySeqno] is at least the one saved before, and it is either the same
    item or a system event of the batch. *)
Theorem batch_never_lowers_saved_seqno (f : t) (cur : Item)
    (items : list Item) :
  getCollectionsManifestItem f = Some cur ->
  Forall (fun it => is_system_event it = true -> has_known_event it = true)
         items ->
  exists f' it,
    process_all f items = Ok f' /\
    getCollectionsManifestItem f' = Some it /\
    getBySeqno cur <= getBySeqno it /\
    (it = cur \/ In it (system_events items)).
Proof.
  intros Hcur Hall.
  destruct (process_all_keeps_highest items Hall f) as (f' & Hrun & Hf').
  destruct (getCollectionsManifestItem f') as [it|] eqn:Hit.
  - destruct Hf' as (Hin & Hge & _).
    exists f', it. repeat split; auto.
    destruct Hin as [Hin|Hin]; [left; congruence|now right].
  - destruct Hf' as (Hnone & _). congruence.
Qed.
End FlushInvariant.

(** X19 at a saved event with seqno 9 followed by a set and an event with
    seqno 5. *)
Lemma batch_never_lowers_saved_seqno_witness :
  let cur := sample_event CollectionsSeparatorChanged
               "$collections::separator" 9 in
  let items := [sample_set "key" 10;
                sample_event CreateCollection "$collections::create:meat" 5] in
  exists f' it,
    @SystemEventFlush.process_all declared_values
      (SystemEventFlush.mk (Some cur)) items = Ok f' /\
    SystemEventFlush.getCollectionsManifestItem f' = Some it /\
    getBySeqno cur <= getBySeqno it /\
    (it = cur \/ In it (system_events items)).
Proof.
  intros cur items.
  apply (@batch_never_lowers_saved_seqno declared_values
           (SystemEventFlush.mk (Some cur)) cur items eq_refl).
  repeat constructor; discriminate.
Defined.
